(** * Multi-Agent: the agent execution engine

    A shallow embedding of the TypeScript sources
    - [lib/agents/core/types.ts]  (data model),
    - [lib/agents/core/Agent.ts]  (tool registry, [callLLM], [executeToolCall],
      [runAgentLoop]),
    - [lib/agents/core/Orchestrator.ts] ([registerSubAgent], [delegateTask],
      [selectBestAgent], [sendRequest], [getStats]),
    - [lib/agents/orchestrators/*.ts]   (the four concrete [execute] methods),
    - [lib/agents/tools/analytics.ts]   ([statisticalAnalysisTool]),
    - [lib/agents/providers/index.ts]   ([ProviderFactory]),
    followed by the properties the specification states about them and
    further properties of the same code.

    Conventions.
    - An [async] method is a computation in a state-and-exception monad
      ([Exec] for an agent, [Orch] for the tables of an orchestrator): it
      threads the mutable fields of the object and the outside world, and it
      either returns a value or throws.  [await] is sequencing.
    - A JavaScript [Map] is an insertion-ordered association list ([JsMap]);
      the two task tables of an orchestrator, which are only looked up by key,
      are [gmap]s.
    - [number] is IEEE binary64 ([float]); timestamps and token counts, which
      are integers, are [Z]. *)

From Stdlib Require Import ZArith List String Ascii Bool Lia Floats.
From stdpp Require Import base option list gmap strings.

Set Warnings "-register-all".

Open Scope string_scope.
Open Scope list_scope.

(* ================================================================= *)
(** ** JavaScript values *)

(** A value of TypeScript type [unknown] that can travel through
    [JSON.parse] and [JSON.stringify].  The number type is a parameter:
    the numerical tool is written over the arithmetic of [Number], of which
    binary64 is the instance the program runs on. *)
Inductive JsValue (N : Type) : Type :=
| JUndefined
| JNull
| JBoolean (b : bool)
| JNumber (n : N)
| JString (s : string)
| JArray (elements : list (JsValue N))
| JObject (fields : list (string * JsValue N)).

Arguments JUndefined {N}.
Arguments JNull {N}.
Arguments JBoolean {N} b.
Arguments JNumber {N} n.
Arguments JString {N} s.
Arguments JArray {N} elements.
Arguments JObject {N} fields.

Definition JSON : Type := JsValue float.

(** ToBoolean, as used by [if (x)], [x && y] and [x || y]. *)
Definition truthy (v : JSON) : bool :=
  match v with
  | JUndefined | JNull => false
  | JBoolean b => b
  | JNumber n => negb (PrimFloat.eqb n 0%float || PrimFloat.is_nan n)
  | JString s => negb (String.eqb s "")
  | JArray _ | JObject _ => true
  end.

(** [o.k] on an object whose keys are distinct: the value under [k], or
    [undefined]. *)
Fixpoint field {N} (k : string) (fields : list (string * JsValue N)) : JsValue N :=
  match fields with
  | [] => JUndefined
  | (k', v) :: rest => if String.eqb k k' then v else field k rest
  end.

Definition prop {N} (k : string) (v : JsValue N) : JsValue N :=
  match v with
  | JObject fields => field k fields
  | _ => JUndefined
  end.

(** A thrown value: an [Error] object with its [message], or anything else. *)
Inductive Thrown : Type :=
| ErrorObject (message : string)
| ThrownValue (shown : string).

(** [error instanceof Error ? error.message : fallback] *)
Definition errorMessage (fallback : string) (error : Thrown) : string :=
  match error with
  | ErrorObject message => message
  | ThrownValue _ => fallback
  end.

(** [a || b] on strings: the empty string is falsy. *)
Definition orString (a : option string) (b : string) : string :=
  match a with
  | Some s => if String.eqb s "" then b else s
  | None => b
  end.

(* ================================================================= *)
(** ** Insertion-ordered maps ([Map<string, V>]) *)

Section JsMap.
Context {V : Type}.

Definition JsMap : Type := list (string * V).

Fixpoint map_get (k : string) (m : JsMap) : option V :=
  match m with
  | [] => None
  | (k', v) :: rest => if String.eqb k k' then Some v else map_get k rest
  end.

(** [m.set(k, v)]: an existing key keeps its position, a new key goes last. *)
Fixpoint map_set (k : string) (v : V) (m : JsMap) : JsMap :=
  match m with
  | [] => [(k, v)]
  | (k', v') :: rest =>
      if String.eqb k k' then (k', v) :: rest else (k', v') :: map_set k v rest
  end.

Definition map_values (m : JsMap) : list V := map snd m.
End JsMap.

Arguments JsMap V : clear implicits.

(* ================================================================= *)
(** ** Computations that may throw *)

Section Monad.
Context {S : Type}.

Definition M (A : Type) : Type := S -> (Thrown + A) * S.

Definition ret {A} (a : A) : M A := fun s => (inr a, s).
Definition throw {A} (e : Thrown) : M A := fun s => (inl e, s).
Definition bind {A B} (c : M A) (k : A -> M B) : M B :=
  fun s => match c s with
           | (inl e, s') => (inl e, s')
           | (inr a, s') => k a s'
           end.
(** [try { c } catch (error) { h error }]: the handler starts from the
    state the body had reached when it threw. *)
Definition try_catch {A} (c : M A) (h : Thrown -> M A) : M A :=
  fun s => match c s with
           | (inl e, s') => h e s'
           | (inr a, s') => (inr a, s')
           end.
Definition gets {A} (f : S -> A) : M A := fun s => (inr (f s), s).
Definition modify (f : S -> S) : M unit := fun s => (inr tt, f s).
(** A pure step that may throw, such as [JSON.parse]. *)
Definition lift {A} (r : Thrown + A) : M A := fun s => (r, s).
End Monad.

Arguments M S A : clear implicits.

Notation "'let!' x ':=' y 'in' z" := (bind y (fun x => z))
  (at level 10, x name, y at level 200, z at level 200,
   format "'[v' 'let!'  x  :=  y  'in'  '/' z ']'").
Notation "'run!' y 'in' z" := (bind y (fun _ => z))
  (at level 10, y at level 200, z at level 200,
   format "'[v' 'run!'  y  'in'  '/' z ']'").

(* ================================================================= *)
(** ** core/types.ts *)

Inductive ParameterType := type_string | type_number | type_boolean | type_object | type_array.

Record ToolParameter := {
  tp_type : ParameterType;
  tp_description : string;
  tp_required : option bool;
  tp_enum : option (list string);
  tp_default : option JSON;
}.

Record ToolDefinition := {
  name : string;
  description : string;
  parameters : JsMap ToolParameter;
}.

Record ToolResultOf (N : Type) := {
  success : bool;
  data : option (JsValue N);
  error : option string;
  metadata : option (list (string * JsValue N));
}.

Arguments success {N} _.
Arguments data {N} _.
Arguments error {N} _.
Arguments metadata {N} _.

Abbreviation ToolResult := (ToolResultOf float).

Inductive AgentRole := master_orchestrator | sub_orchestrator | specialist.
Inductive AgentDomain := analytics | research | content | code | general.

Record AgentConfig := {
  id : string;
  cfg_name : string;
  cfg_description : string;
  role : AgentRole;
  domain : AgentDomain;
  model : option string;
  temperature : option float;
  maxTokens : option Z;
  systemPrompt : option string;
}.

Inductive AgentStatus := idle | thinking | executing | waiting | status_error.

Record ToolCall := {
  tc_id : string;
  toolName : string;
  arguments : JSON;
}.

Inductive MessageRole := system | user | assistant | tool.

Record AgentMessage := {
  am_id : string;
  am_role : MessageRole;
  am_content : string;
  am_timestamp : Z;
  am_toolCalls : option (list ToolCall);
  am_toolResult : option ToolResult;
}.

Record AgentState := {
  status : AgentStatus;
  currentTask : option string;
  lastActivity : option Z;
  messages : list AgentMessage;
  context : list (string * JSON);
}.

Inductive TaskPriority := low | medium | high | critical.
Inductive TaskStatus := pending | in_progress | completed | failed | delegated.

Record Artifact := {
  art_id : string;
  art_type : string;
  art_name : string;
  art_content : JSON;
  art_mimeType : option string;
}.

Record TaskResult := {
  tr_success : bool;
  output : option JSON;
  tr_error : option string;
  artifacts : option (list Artifact);
  executionTime : option Z;
}.

Inductive Task := mkTask {
  task_id : string;
  task_description : string;
  priority : TaskPriority;
  task_status : TaskStatus;
  assignedTo : option string;
  delegatedTo : option string;
  parentTaskId : option string;
  subTasks : list Task;
  task_result : option TaskResult;
  createdAt : Z;
  updatedAt : Z;
  task_metadata : option (list (string * JSON));
}.




(** The serialized tool call of the chat protocol:
    [{ id, type: 'function', function: { name, arguments } }]. *)
Record FunctionCall := {
  fn_name : string;
  fn_arguments : string;
}.

Record WireToolCall := {
  wire_id : string;
  wire_function : FunctionCall;
}.

Record LLMMessage := {
  msg_role : MessageRole;
  msg_content : string;
  msg_toolCalls : option (list WireToolCall);
  msg_toolCallId : option string;
}.

(** ['stop' | 'tool_calls' | 'length' | 'content_filter'] *)
Inductive FinishReason := stop | tool_calls | length_limit | content_filter.

Record Usage := {
  promptTokens : Z;
  completionTokens : Z;
  totalTokens : Z;
}.

Record LLMResponse := {
  resp_content : string;
  resp_toolCalls : option (list WireToolCall);
  finishReason : FinishReason;
  usage : option Usage;
}.

(* ================================================================= *)
(** ** providers/types.ts *)

Inductive ProviderType := openai | ollama | openrouter | n8n | agentrouter | custom.

Record RequestTool := {
  rt_name : string;
  rt_description : string;
  rt_properties : JsMap ToolParameter;
  rt_required : list string;
}.

Record ChatCompletionRequest := {
  req_model : string;
  req_messages : list LLMMessage;
  req_temperature : float;
  req_maxTokens : Z;
  req_tools : option (list RequestTool);
}.

Record Choice := {
  choice_content : option string;
  choice_toolCalls : option (list WireToolCall);
  choice_finishReason : option FinishReason;
}.

Record ChatCompletionResponse := {
  choices : list Choice;
  cc_usage : option Usage;
}.

(** The response of the z-ai-web-dev-sdk client, as [callLLM] reads it:
    [choices[0].message.content], [.message.tool_calls], [.finish_reason]
    (cast to the [finishReason] union) and [usage]. *)
Record ZaiChoice := {
  zc_content : option string;
  zc_tool_calls : option (list WireToolCall);
  finish_reason : FinishReason;
}.

Record ZaiResponse := {
  zai_choices : list ZaiChoice;
  zai_usage : option Usage;
}.

(* ================================================================= *)
(** ** What the engine is linked against

    The platform and the services outside the repository: the JSON codec,
    the clock, the UUID generator and the two chat back ends (the
    z-ai-web-dev-sdk client and the provider registry's active adapter).
    [Env] is the state of everything outside the agent; every back end and
    every tool body may read and change it, and may throw.

    [JSON_stringify_result] is [JSON.stringify(result)] on the result of a
    tool.  The [data] and the [metadata] of a result are [unknown] in the
    source, and [JSON.stringify] throws a [TypeError] on a value it cannot
    serialise (a BigInt, an object that refers to itself).  The trees of
    [JSON] stand for what a tool hands back; on which of them the call
    throws is the platform's to say.

    [toLowerCase] is [String.prototype.toLowerCase]. *)
Class Platform : Type := {
  Env : Type;
  JSON_parse : string -> Thrown + JSON;
  JSON_stringify : JSON -> string;
  JSON_stringify_result : ToolResult -> Thrown + string;
  toLowerCase : string -> string;
  JSON_stringify_indented : JSON -> string;
  String_of : JSON -> string;
  uuidv4 : Env -> string * Env;
  Date_now : Env -> Z * Env;
  ZAI_create : Env -> (Thrown + unit) * Env;
  zai_chat_completions_create :
    ChatCompletionRequest -> Env -> (Thrown + ZaiResponse) * Env;
  providerFactory_createChatCompletion :
    ChatCompletionRequest -> Env -> (Thrown + ChatCompletionResponse) * Env;
}.

(* ================================================================= *)
(** ** core/Agent.ts *)

Section Agent.
Context `{Platform}.

(** A tool: its body is a closure over the outside world.  It may change
    that world and it may throw; the fields of the agent that holds the tool
    are written by the agent's own methods only. *)
Record Tool := {
  definition : ToolDefinition;
  execute : JSON -> Env -> (Thrown + ToolResult) * Env;
}.

Record ProviderSettings := {
  pc_apiKey : option string;
  pc_baseUrl : option string;
  pc_model : option string;
}.

(** The fields of an [Agent] instance.  [zai] tells whether the SDK client
    has been created ([this.zai !== null]). *)
Record Agent := {
  config : AgentConfig;
  state : AgentState;
  tools : JsMap Tool;
  zai : bool;
  messageHistory : list AgentMessage;
  providerType : ProviderType;
  providerConfig : ProviderSettings;
}.

(** What a method of an agent runs against: the agent itself, the outside
    world, and the record [calls] of the message lists handed to [callLLM]
    so far, oldest first.  [calls] is not a field of the program; it is kept
    so that the number of model calls can be stated. *)
Record Sys := {
  self : Agent;
  world : Env;
  calls : list (list LLMMessage);
}.

Definition Exec : Type -> Type := M Sys.

Definition with_self (f : Agent -> Agent) (s : Sys) : Sys :=
  {| self := f (self s); world := world s; calls := calls s |}.

Definition with_state (f : AgentState -> AgentState) (a : Agent) : Agent :=
  {| config := config a; state := f (state a); tools := tools a; zai := zai a;
     messageHistory := messageHistory a; providerType := providerType a;
     providerConfig := providerConfig a |}.

Definition with_status (st : AgentStatus) (g : AgentState) : AgentState :=
  {| status := st; currentTask := currentTask g; lastActivity := lastActivity g;
     messages := messages g; context := context g |}.

Definition with_currentTask (t : option string) (g : AgentState) : AgentState :=
  {| status := status g; currentTask := t; lastActivity := lastActivity g;
     messages := messages g; context := context g |}.

Definition with_lastActivity (t : option Z) (g : AgentState) : AgentState :=
  {| status := status g; currentTask := currentTask g; lastActivity := t;
     messages := messages g; context := context g |}.

Definition with_tools (f : JsMap Tool -> JsMap Tool) (a : Agent) : Agent :=
  {| config := config a; state := state a; tools := f (tools a); zai := zai a;
     messageHistory := messageHistory a; providerType := providerType a;
     providerConfig := providerConfig a |}.

Definition with_zai (z : bool) (a : Agent) : Agent :=
  {| config := config a; state := state a; tools := tools a; zai := z;
     messageHistory := messageHistory a; providerType := providerType a;
     providerConfig := providerConfig a |}.

Definition with_messageHistory (h : list AgentMessage) (a : Agent) : Agent :=
  {| config := config a; state := state a; tools := tools a; zai := zai a;
     messageHistory := h; providerType := providerType a;
     providerConfig := providerConfig a |}.

Definition with_messages (ms : list AgentMessage) (g : AgentState) : AgentState :=
  {| status := status g; currentTask := currentTask g; lastActivity := lastActivity g;
     messages := ms; context := context g |}.

(** [this.state.status = st] *)
Definition set_status (st : AgentStatus) : Exec unit :=
  modify (with_self (with_state (with_status st))).

(** A call into the outside world that may throw. *)
Definition outside {A} (f : Env -> (Thrown + A) * Env) : Exec A :=
  fun s => let (r, w) := f (world s) in
           (r, {| self := self s; world := w; calls := calls s |}).

(** A call into the outside world that cannot throw ([uuidv4()], [new Date()]). *)
Definition ask {A} (f : Env -> A * Env) : Exec A :=
  outside (fun w => let (a, w') := f w in (inr a, w')).

(** *** Tool management *)

Definition registerTool (t : Tool) (a : Agent) : Agent :=
  with_tools (map_set (name (definition t)) t) a.

Definition registerTools (ts : list Tool) (a : Agent) : Agent :=
  fold_left (fun a t => registerTool t a) ts a.

Definition getToolDefinitions (a : Agent) : list ToolDefinition :=
  map definition (map_values (tools a)).

(** *** Message handling *)

Definition addMessage (role : MessageRole) (content : string)
    (toolCalls : option (list ToolCall)) (toolResult : option ToolResult) : Exec unit :=
  let! i := ask uuidv4 in
  let! now := ask Date_now in
  modify (with_self (fun a =>
    with_messageHistory
      (messageHistory a ++
         [{| am_id := i; am_role := role; am_content := content; am_timestamp := now;
             am_toolCalls := toolCalls; am_toolResult := toolResult |}]) a)).

Definition getMessageHistory (a : Agent) : list AgentMessage := messageHistory a.

Definition clearHistory (a : Agent) : Agent := with_messageHistory [] a.

(** *** LLM integration *)

Record LLMOptions := {
  opt_temperature : option float;
  opt_maxTokens : option Z;
  opt_model : option string;
}.

(** [o?.f] *)
Definition optional {A B} (f : A -> option B) (o : option A) : option B :=
  match o with Some x => f x | None => None end.

(** [a ?? b] *)
Definition nullish {A} (a : option A) (b : A) : A :=
  match a with Some x => x | None => b end.

Definition requestTool (t : ToolDefinition) : RequestTool :=
  {| rt_name := name t;
     rt_description := description t;
     rt_properties := parameters t;
     rt_required :=
       map fst (List.filter (fun e => match tp_required (snd e) with
                                 | Some true => true
                                 | _ => false
                                 end) (parameters t)) |}.

(** The message as it is put on the wire: a [tool] message is sent with role
    [user]; [toolCalls] is kept when present, [toolCallId] when it is a
    non-empty string. *)
Definition wireMessage (m : LLMMessage) : LLMMessage :=
  {| msg_role := match msg_role m with tool => user | r => r end;
     msg_content := msg_content m;
     msg_toolCalls := msg_toolCalls m;
     msg_toolCallId := match msg_toolCallId m with
                       | Some i => if String.eqb i "" then None else Some i
                       | None => None
                       end |}.

(** The request of [callLLM].  Both paths build it in the same way, up to
    the spelling of three field names ([maxTokens] / [max_tokens],
    [toolCalls] / [tool_calls], [toolCallId] / [tool_call_id]); the tool
    schemas are sent only when the registry is not empty. *)
Definition buildRequest (a : Agent) (messages : list LLMMessage)
    (options : option LLMOptions) : ChatCompletionRequest :=
  let defs := getToolDefinitions a in
  let hasTools := negb (Nat.eqb (List.length defs) 0) in
  {| req_model :=
       orString (optional opt_model options)
         (orString (pc_model (providerConfig a))
            (orString (model (config a)) "gpt-4o"));
     req_messages := map wireMessage messages;
     req_temperature :=
       nullish (optional opt_temperature options)
         (nullish (temperature (config a)) 0x1.6666666666666p-1%float);
     req_maxTokens :=
       nullish (optional opt_maxTokens options) (nullish (maxTokens (config a)) 4096%Z);
     req_tools := if hasTools then Some (map requestTool defs) else None |}.

(** [response.choices[0]] followed by a property access on it, which throws
    a [TypeError] when there is no first choice. *)
Definition firstOf {A} (l : list A) : Thrown + A :=
  match l with
  | c :: _ => inr c
  | [] => inl (ErrorObject "Cannot read properties of undefined (reading 'message')")
  end.

(** The call is put on record; this step has no counterpart in the program. *)
Definition record_call (messages : list LLMMessage) : Exec unit :=
  modify (fun s => {| self := self s; world := world s;
                      calls := calls s ++ [messages] |}).

(** The provider-registry path, taken when [providerType !== 'openai']. *)
Definition callProvider (request : ChatCompletionRequest) : Exec LLMResponse :=
  let! response := outside (providerFactory_createChatCompletion request) in
  let! choice := lift (firstOf (choices response)) in
  ret {| resp_content := orString (choice_content choice) "";
         resp_toolCalls := choice_toolCalls choice;
         finishReason := nullish (choice_finishReason choice) stop;
         usage := cc_usage response |}.

(** The default path through the SDK client, created on first use. *)
Definition callDefault (request : ChatCompletionRequest) : Exec LLMResponse :=
  let! ready := gets (fun s => zai (self s)) in
  run! (if ready then ret tt
        else run! outside ZAI_create in modify (with_self (with_zai true))) in
  let! response := outside (zai_chat_completions_create request) in
  let! choice := lift (firstOf (zai_choices response)) in
  ret {| resp_content := orString (zc_content choice) "";
         resp_toolCalls := zc_tool_calls choice;
         finishReason := finish_reason choice;
         usage := zai_usage response |}.

Definition isOpenai (p : ProviderType) : bool :=
  match p with openai => true | _ => false end.

(** The body of [callLLM]: a provider other than the default one is tried
    first and any error it raises is swallowed, falling back to the default
    path. *)
Definition requestCompletion (messages : list LLMMessage) (options : option LLMOptions)
    : Exec LLMResponse :=
  let! request := gets (fun s => buildRequest (self s) messages options) in
  let! default := gets (fun s => isOpenai (providerType (self s))) in
  let! early :=
    (if default then ret None
     else try_catch (let! r := callProvider request in ret (Some r))
                    (fun _ => ret None)) in
  match early with
  | Some r => ret r
  | None => callDefault request
  end.

(** [callLLM], with the call put on record. *)
Definition callLLM (messages : list LLMMessage) (options : option LLMOptions)
    : Exec LLMResponse :=
  run! record_call messages in
  requestCompletion messages options.

(** *** Tool execution *)

Definition executeToolCall (toolCall : ToolCall) : Exec ToolResult :=
  let! found := gets (fun s => map_get (toolName toolCall) (tools (self s))) in
  match found with
  | None =>
      ret {| success := false; data := None;
             error := Some ("Unknown tool: " +:+ toolName toolCall);
             metadata := None |}
  | Some t =>
      try_catch
        (let! result := outside (execute t (arguments toolCall)) in ret result)
        (fun error =>
           ret {| success := false; data := None;
                  error := Some (errorMessage "Unknown error" error);
                  metadata := None |})
  end.

Definition parseToolCall (tc : WireToolCall) : Thrown + ToolCall :=
  match JSON_parse (fn_arguments (wire_function tc)) with
  | inl e => inl e
  | inr args =>
      inr {| tc_id := wire_id tc; toolName := fn_name (wire_function tc);
             arguments := args |}
  end.

(** [toolCalls.map(tc => ...)]: the first argument string that does not
    parse makes the whole call throw. *)
Fixpoint parseToolCalls (toolCalls : list WireToolCall) : Thrown + list ToolCall :=
  match toolCalls with
  | [] => inr []
  | tc :: rest =>
      match parseToolCall tc with
      | inl e => inl e
      | inr c =>
          match parseToolCalls rest with
          | inl e => inl e
          | inr cs => inr (c :: cs)
          end
      end
  end.
(** *** Agent loop *)

Record LoopResult := {
  lr_messages : list AgentMessage;
  lr_result : JSON;
}.

Definition isStop (r : FinishReason) : bool :=
  match r with stop => true | _ => false end.

(** [!response.toolCalls?.length] *)
Definition noToolCalls (r : LLMResponse) : bool :=
  match resp_toolCalls r with
  | None | Some [] => true
  | Some (_ :: _) => false
  end.

(** The locals of [runAgentLoop] that the [for] loop over the tool calls
    writes to. *)
Record Turn := {
  allMessages : list AgentMessage;
  toolResults : list LLMMessage;
  llmMessages : list LLMMessage;
}.

(** [for (const tc of response.toolCalls) { ... }] *)
Fixpoint executeTools (response : LLMResponse) (tcs : list WireToolCall) (t : Turn)
    : Exec Turn :=
  match tcs with
  | [] => ret t
  | tc :: rest =>
      let! args := lift (JSON_parse (fn_arguments (wire_function tc))) in
      let toolCall := {| tc_id := wire_id tc; toolName := fn_name (wire_function tc);
                         arguments := args |} in
      let! result := executeToolCall toolCall in
      let! i := ask uuidv4 in
      let! text := lift (JSON_stringify_result result) in
      let! now := ask Date_now in
      let toolMessage :=
        {| am_id := i; am_role := tool; am_content := text; am_timestamp := now;
           am_toolCalls := None; am_toolResult := Some result |} in
      executeTools response rest
        {| allMessages := allMessages t ++ [toolMessage];
           toolResults :=
             toolResults t ++
               [{| msg_role := tool; msg_content := text; msg_toolCalls := None;
                   msg_toolCallId := Some (wire_id tc) |}];
           llmMessages :=
             llmMessages t ++
               [{| msg_role := assistant; msg_content := resp_content response;
                   msg_toolCalls := resp_toolCalls response;
                   msg_toolCallId := None |}] |}
  end.

(** [while (iterations < maxIterations) { iterations++; ... }], by recursion
    on [maxIterations - iterations].  [maxIterations] is a natural number:
    the callers pass 20, 15 and 10, and the default is 10. *)
Fixpoint loop (remaining : nat) (all : list AgentMessage) (msgs : list LLMMessage)
    : Exec LoopResult :=
  match remaining with
  | O =>
      run! set_status idle in
      ret {| lr_messages := all; lr_result := JString "Maximum iterations reached" |}
  | S remaining' =>
      run! set_status thinking in
      let! response := callLLM msgs None in
      let! i := ask uuidv4 in
      let! now := ask Date_now in
      let! parsed :=
        match resp_toolCalls response with
        | Some tcs => let! cs := lift (parseToolCalls tcs) in ret (Some cs)
        | None => ret None
        end in
      let assistantMessage :=
        {| am_id := i; am_role := assistant; am_content := resp_content response;
           am_timestamp := now; am_toolCalls := parsed; am_toolResult := None |} in
      let all := all ++ [assistantMessage] in
      if isStop (finishReason response) || noToolCalls response then
        run! set_status idle in
        ret {| lr_messages := all; lr_result := JString (resp_content response) |}
      else
        run! set_status executing in
        let! t := executeTools response (nullish (resp_toolCalls response) [])
                    {| allMessages := all; toolResults := []; llmMessages := msgs |} in
        loop remaining' (allMessages t) (llmMessages t ++ toolResults t)
  end.

Definition runAgentLoop (initialMessages : list LLMMessage) (maxIterations : nat)
    : Exec LoopResult :=
  loop maxIterations [] initialMessages.
End Agent.

(* ================================================================= *)
(** ** orchestrators/*.ts: the four concrete [execute] methods *)

Definition newline : string := String (ascii_of_nat 10) "".

Section Orchestrators.
Context `{Platform}.

Inductive ConcreteOrchestrator :=
| MasterOrchestrator
| AnalyticsOrchestrator
| ResearchOrchestrator
| ContentOrchestrator.

(** [task.metadata?.k] *)
Definition meta (k : string) (task : Task) : JSON :=
  match task_metadata task with
  | Some fields => field k fields
  | None => JUndefined
  end.

(** [if (v) prompt += text v] *)
Definition when (v : JSON) (text : JSON -> string) : string :=
  if truthy v then text v else "".

Definition buildTaskPrompt (o : ConcreteOrchestrator) (task : Task) : string :=
  match o with
  | MasterOrchestrator => task_description task
  | AnalyticsOrchestrator =>
      "Task: " +:+ task_description task +:+ newline
      +:+ when (meta "data" task) (fun v =>
            newline +:+ "Data provided:" +:+ newline
            +:+ JSON_stringify_indented v +:+ newline)
      +:+ when (meta "context" task) (fun v =>
            newline +:+ "Context: " +:+ JSON_stringify v +:+ newline)
      +:+ newline +:+ "Analyze the data and provide insights using the available tools."
  | ResearchOrchestrator =>
      "Research Task: " +:+ task_description task +:+ newline
      +:+ when (meta "urls" task) (fun v =>
            newline +:+ "URLs to investigate:" +:+ newline
            +:+ JSON_stringify_indented v +:+ newline)
      +:+ when (meta "context" task) (fun v =>
            newline +:+ "Context: " +:+ JSON_stringify v +:+ newline)
      +:+ newline +:+ "Conduct research and provide comprehensive findings."
  | ContentOrchestrator =>
      "Content Task: " +:+ task_description task +:+ newline
      +:+ when (meta "topic" task) (fun v =>
            newline +:+ "Topic: " +:+ String_of v +:+ newline)
      +:+ when (meta "tone" task) (fun v =>
            newline +:+ "Tone: " +:+ String_of v +:+ newline)
      +:+ when (meta "format" task) (fun v =>
            newline +:+ "Format: " +:+ String_of v +:+ newline)
      +:+ when (meta "data" task) (fun v =>
            newline +:+ "Data to include:" +:+ newline
            +:+ JSON_stringify_indented v +:+ newline)
      +:+ newline +:+ "Create the requested content."
  end.

Definition defaultSystemPrompt (o : ConcreteOrchestrator) : string :=
  match o with
  | MasterOrchestrator => "You are a master orchestrator."
  | AnalyticsOrchestrator => "You are an analytics orchestrator."
  | ResearchOrchestrator => "You are a research orchestrator."
  | ContentOrchestrator => "You are a content orchestrator."
  end.

Definition userMessage (text : string) : LLMMessage :=
  {| msg_role := user; msg_content := text; msg_toolCalls := None;
     msg_toolCallId := None |}.

Definition buildMessages (o : ConcreteOrchestrator) (a : Agent) (task : Task)
    : list LLMMessage :=
  [ {| msg_role := system;
       msg_content := orString (systemPrompt (config a)) (defaultSystemPrompt o);
       msg_toolCalls := None; msg_toolCallId := None |};
    userMessage (buildTaskPrompt o task) ]
  ++ match o with
     | MasterOrchestrator =>
         if truthy (meta "context" task)
         then [userMessage ("Additional context: "
                            +:+ JSON_stringify (meta "context" task))]
         else []
     | _ => []
     end.

(** The iteration cap each orchestrator passes to [runAgentLoop]. *)
Definition iterationCap (o : ConcreteOrchestrator) : nat :=
  match o with
  | MasterOrchestrator => 20
  | AnalyticsOrchestrator => 15
  | ResearchOrchestrator => 15
  | ContentOrchestrator => 10
  end.

Definition unknownErrorText (o : ConcreteOrchestrator) : string :=
  match o with
  | MasterOrchestrator => "Unknown error during orchestration"
  | AnalyticsOrchestrator => "Unknown error during analytics execution"
  | ResearchOrchestrator => "Unknown error during research execution"
  | ContentOrchestrator => "Unknown error during content execution"
  end.

(** The [try] block of [execute]. *)
Definition execute_try (o : ConcreteOrchestrator) (task : Task) (startTime : Z)
    : Exec TaskResult :=
  run! set_status thinking in
  run! modify (with_self (with_state (with_currentTask (Some (task_id task))))) in
  let! a := gets self in
  let! r := runAgentLoop (buildMessages o a task) (iterationCap o) in
  run! set_status idle in
  let! now := ask Date_now in
  run! modify (with_self (with_state (with_lastActivity (Some now)))) in
  let! endTime := ask Date_now in
  ret {| tr_success := true; output := Some (lr_result r); tr_error := None;
         artifacts := None; executionTime := Some (endTime - startTime)%Z |}.

(** The [catch] block of [execute]. *)
Definition execute_catch (o : ConcreteOrchestrator) (startTime : Z) (error : Thrown)
    : Exec TaskResult :=
  run! set_status status_error in
  let! endTime := ask Date_now in
  ret {| tr_success := false; output := None;
         tr_error := Some (errorMessage (unknownErrorText o) error);
         artifacts := None; executionTime := Some (endTime - startTime)%Z |}.

Definition execute_orchestrator (o : ConcreteOrchestrator) (task : Task) : Exec TaskResult :=
  let! startTime := ask Date_now in
  try_catch (execute_try o task startTime) (execute_catch o startTime).
End Orchestrators.

(* ================================================================= *)
(** ** core/Orchestrator.ts *)

(** [s.includes(t)] *)
Fixpoint includes (s t : string) : bool :=
  String.prefix t s
  || match s with
     | EmptyString => false
     | String _ rest => includes rest t
     end.

Section Orchestrator.
Context `{Platform}.

(** An [Agent] as its orchestrator sees it: its identity and its [execute]
    method, which runs in the outside world and may throw.  It is handed the
    task and does not write to it, nor to the tables of the orchestrator. *)
Record AgentRef := {
  agent_id : string;
  agent_name : string;
  agent_execute : Task -> Env -> (Thrown + TaskResult) * Env;
}.

Record SubAgent := {
  sa_id : string;
  sa_name : string;
  agent : AgentRef;
  capabilities : list string;
}.

(** The fields [Orchestrator] adds to [Agent], with the outside world. *)
Record Orchestrator := {
  subAgents : JsMap SubAgent;
  pendingTasks : gmap string Task;
  completedTasks : gmap string TaskResult;
  outer : Env;
}.

Definition Orch : Type -> Type := M Orchestrator.

Definition with_outer (w : Env) (o : Orchestrator) : Orchestrator :=
  {| subAgents := subAgents o; pendingTasks := pendingTasks o;
     completedTasks := completedTasks o; outer := w |}.

Definition with_pendingTasks (f : gmap string Task -> gmap string Task)
    (o : Orchestrator) : Orchestrator :=
  {| subAgents := subAgents o; pendingTasks := f (pendingTasks o);
     completedTasks := completedTasks o; outer := outer o |}.

Definition with_completedTasks (f : gmap string TaskResult -> gmap string TaskResult)
    (o : Orchestrator) : Orchestrator :=
  {| subAgents := subAgents o; pendingTasks := pendingTasks o;
     completedTasks := f (completedTasks o); outer := outer o |}.

Definition outsideO {A} (f : Env -> (Thrown + A) * Env) : Orch A :=
  fun o => let (r, w) := f (outer o) in (r, with_outer w o).

Definition askO {A} (f : Env -> A * Env) : Orch A :=
  outsideO (fun w => let (a, w') := f w in (inr a, w')).

(** [registerSubAgent]: the entry in [subAgents].  (The method also puts a
    [delegate_to_...] tool into the agent's tool registry, whose body calls
    [delegateTask]; the registry is not among the fields kept here.) *)
Definition registerSubAgent (a : AgentRef) (caps : list string) (o : Orchestrator)
    : Orchestrator :=
  {| subAgents :=
       map_set (agent_id a)
         {| sa_id := agent_id a; sa_name := agent_name a; agent := a;
            capabilities := caps |} (subAgents o);
     pendingTasks := pendingTasks o;
     completedTasks := completedTasks o;
     outer := outer o |}.

Definition getSubAgent (agentId : string) (o : Orchestrator) : option SubAgent :=
  map_get agentId (subAgents o).

Definition getAvailableAgents (o : Orchestrator) : list SubAgent :=
  map_values (subAgents o).

(** *** Task delegation *)

Definition with_outcome (st : TaskStatus) (r : TaskResult) (now : Z) (t : Task) : Task :=
  {| task_id := task_id t; task_description := task_description t;
     priority := priority t; task_status := st; assignedTo := assignedTo t;
     delegatedTo := delegatedTo t; parentTaskId := parentTaskId t;
     subTasks := subTasks t; task_result := Some r; createdAt := createdAt t;
     updatedAt := now; task_metadata := task_metadata t |}.

(** What a call of [delegateTask] leaves behind: the value it returns and
    the task object it created, as that object stands when the call returns
    ([None] when no task was created). *)
Record Delegation := {
  returned : TaskResult;
  created : option Task;
}.

(** The task object [delegateTask] creates. *)
Definition newTask (i : string) (created updated : Z)
    (agentId taskDescription : string) (context : JSON) : Task :=
  {| task_id := i; task_description := taskDescription; priority := medium;
     task_status := in_progress; assignedTo := Some agentId;
     delegatedTo := None; parentTaskId := None; subTasks := [];
     task_result := None; createdAt := created; updatedAt := updated;
     task_metadata := Some [("context", context)] |}.

(** The result the [catch] block of [delegateTask] builds. *)
Definition failedResult (error : Thrown) : TaskResult :=
  {| tr_success := false; output := None;
     tr_error := Some (errorMessage "Unknown error" error);
     artifacts := None; executionTime := None |}.

(** The bookkeeping both branches end with: the task takes its outcome and
    moves from [pendingTasks] to [completedTasks]. *)
Definition settle (st : TaskStatus) (result : TaskResult) (task : Task)
    : Orch Delegation :=
  let! now := askO Date_now in
  let task := with_outcome st result now task in
  run! modify (with_pendingTasks (delete (task_id task))) in
  run! modify (with_completedTasks (insert (task_id task) result)) in
  ret {| returned := result; created := Some task |}.

Definition delegation (agentId taskDescription : string) (context : JSON)
    : Orch Delegation :=
  let! found := gets (fun o => map_get agentId (subAgents o)) in
  match found with
  | None =>
      ret {| returned :=
               {| tr_success := false; output := None;
                  tr_error := Some ("Sub-agent not found: " +:+ agentId);
                  artifacts := None; executionTime := None |};
             created := None |}
  | Some subAgent =>
      let! i := askO uuidv4 in
      let! c := askO Date_now in
      let! u := askO Date_now in
      let task := newTask i c u agentId taskDescription context in
      run! modify (with_pendingTasks (insert (task_id task) task)) in
      try_catch
        (let! result := outsideO (agent_execute (agent subAgent) task) in
         settle (if tr_success result then completed else failed) result task)
        (fun error => settle failed (failedResult error) task)
  end.

Definition delegateTask (agentId taskDescription : string) (context : JSON)
    : Orch TaskResult :=
  let! d := delegation agentId taskDescription context in
  ret (returned d).

(** *** Agent selection *)

(** The inner [for] loop: some capability, lowercased, occurs in [task]. *)
Definition capable (task : string) (subAgent : SubAgent) : bool :=
  existsb (fun capability => includes task (toLowerCase capability))
    (capabilities subAgent).

(** The outer [for] loop over the entries of [subAgents], in map order. *)
Fixpoint firstCapable (task : string) (entries : JsMap SubAgent) : option string :=
  match entries with
  | [] => None
  | (i, subAgent) :: rest =>
      if capable task subAgent then Some i else firstCapable task rest
  end.

(** [firstAgent?.id || null]: [null] is [None]. *)
Definition firstAgentId (entries : JsMap SubAgent) : option string :=
  match map_values entries with
  | [] => None
  | firstAgent :: _ =>
      if String.eqb (sa_id firstAgent) "" then None else Some (sa_id firstAgent)
  end.

Definition selectBestAgent (taskDescription : string) (o : Orchestrator)
    : option string :=
  let task := toLowerCase taskDescription in
  match firstCapable task (subAgents o) with
  | Some i => Some i
  | None => firstAgentId (subAgents o)
  end.

(** *** Communication *)



(** *** Status and monitoring *)

Definition getStats (o : Orchestrator) : nat * nat * nat * nat :=
  let done := map snd (map_to_list (completedTasks o)) in
  (size (pendingTasks o) + size (completedTasks o),
   size (pendingTasks o),
   List.length (List.filter tr_success done),
   List.length (List.filter (fun r => negb (tr_success r)) done)).
End Orchestrator.

(* ================================================================= *)
(** ** tools/analytics.ts: [statisticalAnalysisTool] *)

(** The arithmetic of [number] that the tool uses.  The program runs on
    binary64, which is the instance [Binary64.number] below. *)
Class Number (N : Type) : Type := {
  fromNat : nat -> N;
  plus : N -> N -> N;
  minus : N -> N -> N;
  times : N -> N -> N;
  divide : N -> N -> N;
  squareRoot : N -> N;
  (** [isNaN(x)] *)
  isNaN : N -> bool;
  (** [x > 0] *)
  positive : N -> bool;
  (** [x === 0] *)
  isZero : N -> bool;
  (** [String(a) === String(b)], for numbers that are not NaN *)
  sameKey : N -> N -> bool;
  (** [String(x)] is an array index: an integer from 0 to 2^32 - 2 *)
  isArrayIndex : N -> bool;
  (** [parseFloat(String(x))] *)
  parseFloatOfString : N -> N;
}.

Module Binary64.
(** A finite binary64 [m * 2^e] is an integer. *)
Definition isInteger (x : float) : bool :=
  match Prim2SF x with
  | S754_zero _ => true
  | S754_finite _ m e =>
      if (0 <=? e)%Z then true
      else (Z.pos m mod 2 ^ (- e) =? 0)%Z
  | _ => false
  end.

#[export] Instance number : Number float := {
  fromNat n := PrimFloat.of_uint63 (Uint63.of_Z (Z.of_nat n));
  plus := PrimFloat.add;
  minus := PrimFloat.sub;
  times := PrimFloat.mul;
  divide := PrimFloat.div;
  squareRoot := PrimFloat.sqrt;
  isNaN := PrimFloat.is_nan;
  positive x := PrimFloat.ltb 0%float x;
  isZero x := PrimFloat.eqb x 0%float;
  sameKey := PrimFloat.eqb;
  isArrayIndex x :=
    PrimFloat.leb 0%float x && PrimFloat.leb x 4294967294%float && isInteger x;
  parseFloatOfString x := if PrimFloat.eqb x 0%float then 0%float else x;
}.
End Binary64.

(** What the tool meets of the engine it runs on.  [Math.max(...a)] passes
    every element of [a] as an argument of one call, and throws a
    [RangeError] ("Maximum call stack size exceeded") when [a] has more
    elements than the call stack takes; [argumentLimit] is the largest
    number of elements on which it does not. *)
Class Engine : Type := {
  argumentLimit : nat;
}.


Section Statistics.
Context {N : Type} `{Number N} `{Engine}.

Definition Value : Type := JsValue N.

(** ToBoolean on values whose numbers are of type [N]. *)
Definition truthyValue (v : Value) : bool :=
  match v with
  | JUndefined | JNull => false
  | JBoolean b => b
  | JNumber n => negb (isZero n || isNaN n)
  | JString s => negb (String.eqb s "")
  | JArray _ | JObject _ => true
  end.

(** [operations.includes(op)], on whatever value [operations] is: a search
    by [===] in an array, a substring test on a string, and a [TypeError]
    on anything else. *)
Definition includesOperation (operations : Value) (op : string) : Thrown + bool :=
  match operations with
  | JArray elements =>
      inr (existsb (fun e => match e with
                             | JString s => String.eqb s op
                             | _ => false
                             end) elements)
  | JString s => inr (includes s op)
  | _ => inl (ErrorObject "operations.includes is not a function")
  end.

(** [data.filter((n) => typeof n === 'number' && !isNaN(n))] *)
Fixpoint numericOnly (elements : list Value) : list N :=
  match elements with
  | [] => []
  | JNumber n :: rest => if isNaN n then numericOnly rest else n :: numericOnly rest
  | _ :: rest => numericOnly rest
  end.

(** [[...numericData].sort((a, b) => a - b)]: the sort is stable, so with
    this comparator its result is that of inserting the elements one by
    one, each before the first element that is greater. *)
Fixpoint insertNumber (x : N) (l : list N) : list N :=
  match l with
  | [] => [x]
  | y :: rest =>
      if positive (minus y x) then x :: y :: rest else y :: insertNumber x rest
  end.

Definition sortNumbers (l : list N) : list N :=
  fold_left (fun acc x => insertNumber x acc) l [].

(** [sorted[i]], for an index within the array. *)
Definition at_index (sorted : list N) (i : nat) : N := nth i sorted (fromNat 0).

(** [results.k = v] *)
Definition assign (k : string) (v : Value) (results : JsMap Value) : JsMap Value :=
  map_set k v results.

(** The [freq] object of the mode computation: one entry per distinct key
    [String(n)], in the order the keys were first written. *)
Fixpoint countKey (x : N) (freq : list (N * nat)) : list (N * nat) :=
  match freq with
  | [] => [(x, 1)]
  | (k, c) :: rest =>
      if sameKey k x then (k, S c) :: rest else (k, c) :: countKey x rest
  end.

(** [Object.entries(freq)]: array-index keys in ascending order, then the
    other keys in the order they were written.  The keys are written in
    ascending order of the sorted data, so the first group is in written
    order as well. *)
Definition entriesOf (freq : list (N * nat)) : list (N * nat) :=
  List.filter (fun e => isArrayIndex (fst e)) freq
  ++ List.filter (fun e => negb (isArrayIndex (fst e))) freq.

(** [freq] after [sorted.forEach((n) => { freq[n] = (freq[n] || 0) + 1; })] *)
Definition frequencies (sorted : list N) : list (N * nat) :=
  fold_left (fun f x => countKey x f) sorted [].

(** The mode computation.  [Math.max(...Object.values(freq))] throws when
    there are more distinct values than a call takes arguments. *)
Definition modeOf (sorted : list N) : Thrown + list N :=
  let freq := frequencies sorted in
  let values := map snd (entriesOf freq) in
  if (argumentLimit <? List.length values)%nat
  then inl (ErrorObject "Maximum call stack size exceeded")
  else
    let maxFreq := fold_left Nat.max values 0 in
    inr (map (fun e => parseFloatOfString (fst e))
           (List.filter (fun e => Nat.eqb (snd e) maxFreq) (entriesOf freq))).

(** One [if (operations.includes(op)) ...] statement. *)
Definition whenRequested (operations : Value) (op : string)
    (update : JsMap Value -> JsMap Value) (results : JsMap Value)
    : Thrown + JsMap Value :=
  match includesOperation operations op with
  | inl e => inl e
  | inr true => inr (update results)
  | inr false => inr results
  end.

Definition andThen {A B} (r : Thrown + A) (k : A -> Thrown + B) : Thrown + B :=
  match r with
  | inl e => inl e
  | inr a => k a
  end.

Definition defaultOperations : Value :=
  JArray (map JString ["mean"; "median"; "std"; "min"; "max"; "sum"; "count"]).

(** The body of the [try] block, for data that passed both checks.
    [Math.pow(x, 2)] is read as [x * x]. *)
Definition analyse (numericData : list N) (operations : Value)
    : Thrown + ToolResultOf N :=
  let sorted := sortNumbers numericData in
  let n := List.length sorted in
  let sum := fold_left plus sorted (fromNat 0) in
  let mean := divide sum (fromNat n) in
  let requested := whenRequested operations in
  andThen (requested "count" (assign "count" (JNumber (fromNat n))) []) (fun results =>
  andThen (requested "sum" (assign "sum" (JNumber sum)) results) (fun results =>
  andThen (requested "mean" (assign "mean" (JNumber mean)) results) (fun results =>
  andThen (requested "min" (assign "min" (JNumber (at_index sorted 0))) results) (fun results =>
  andThen (requested "max" (assign "max" (JNumber (at_index sorted (n - 1)))) results) (fun results =>
  andThen (requested "median"
             (assign "median"
                (JNumber
                   (if Nat.eqb (n mod 2) 0
                    then divide (plus (at_index sorted (n / 2 - 1))
                                      (at_index sorted (n / 2)))
                                (fromNat 2)
                    else at_index sorted (n / 2)))) results) (fun results =>
  andThen (includesOperation operations "mode") (fun wantsMode =>
  andThen (if wantsMode
           then andThen (modeOf sorted) (fun mode =>
                  inr (assign "mode" (JArray (map JNumber mode)) results))
           else inr results) (fun results =>
  andThen (includesOperation operations "variance") (fun wantsVariance =>
  andThen (if wantsVariance then inr true else includesOperation operations "std")
    (fun wantsSpread =>
  let results :=
    if wantsSpread then
      let variance :=
        divide (fold_left (fun acc x => plus acc (times (minus x mean) (minus x mean)))
                  sorted (fromNat 0))
               (fromNat n) in
      assign "std" (JNumber (squareRoot variance))
        (assign "variance" (JNumber variance) results)
    else results in
  andThen (requested "quartiles"
             (fun results =>
                let q1 := at_index sorted (n / 4) in
                let q3 := at_index sorted (3 * n / 4) in
                assign "iqr" (JNumber (minus q3 q1))
                  (assign "q3" (JNumber q3) (assign "q1" (JNumber q1) results)))
             results) (fun results =>
  inr {| success := true;
         data := Some (JObject results);
         error := None;
         metadata := Some [("dataSize", JNumber (fromNat n));
                           ("operationsPerformed", operations)] |}))))))))))).

Definition failure (message : string) : ToolResultOf N :=
  {| success := false; data := None; error := Some message; metadata := None |}.

(** [statisticalAnalysisTool.execute(params)].  [params.data] is read inside
    the [try] block, so that a [params] that is [null] or [undefined] ends
    in the [catch] block like every other error. *)
Definition statisticalAnalysis (params : Value) : ToolResultOf N :=
  match params with
  | JUndefined => failure "Cannot read properties of undefined (reading 'data')"
  | JNull => failure "Cannot read properties of null (reading 'data')"
  | _ =>
  let data := prop "data" params in
  let operations :=
    if truthyValue (prop "operations" params) then prop "operations" params
    else defaultOperations in
  match data with
  | JArray [] => failure "Data must be a non-empty array of numbers"
  | JArray elements =>
      match numericOnly elements with
      | [] => failure "No valid numeric values in data"
      | numericData =>
          match analyse numericData operations with
          | inr result => result
          | inl error => failure (errorMessage "Unknown error" error)
          end
      end
  | _ => failure "Data must be a non-empty array of numbers"
  end
  end.
End Statistics.

(* ================================================================= *)
(** ** providers/index.ts: [ProviderFactory] *)

Definition providerTypeName (type : ProviderType) : string :=
  match type with
  | openai => "openai"
  | ollama => "ollama"
  | openrouter => "openrouter"
  | n8n => "n8n"
  | agentrouter => "agentrouter"
  | custom => "custom"
  end.

Definition sameProviderType (a b : ProviderType) : bool :=
  String.eqb (providerTypeName a) (providerTypeName b).

Record ProviderConfig := {
  cfg_type : ProviderType;
  enabled : bool;
  cfg_apiKey : option string;
  cfg_baseUrl : option string;
  defaultModel : string;
  availableModels : list string;
  cfg_options : option (list (string * JSON));
}.

Record ConnectionTest := {
  ct_success : bool;
  ct_error : option string;
}.

Section ProviderFactory.
Context `{Platform}.

(** An [AIProvider] as the factory uses it.  A provider keeps its own state
    (its configuration, its base URL) and talks to its back end; both are
    part of the outside world here, which its methods read and change. *)
Record AIProvider := {
  initialize : ProviderConfig -> Env -> (Thrown + unit) * Env;
  isReady : Env -> bool;
  createChatCompletion :
    ChatCompletionRequest -> Env -> (Thrown + ChatCompletionResponse) * Env;
  testConnection : Env -> (Thrown + ConnectionTest) * Env;
}.

(** A [Map] keyed by [ProviderType]; the factory never lists one in
    order. *)
Definition TypeMap (V : Type) : Type := ProviderType -> option V.

Definition type_set {V} (type : ProviderType) (v : V) (m : TypeMap V) : TypeMap V :=
  fun t => if sameProviderType t type then Some v else m t.

(** The fields of the factory, the outside world, and the lines written
    with [console.error]. *)
Record ProviderFactory := {
  providers : TypeMap AIProvider;
  activeProvider : ProviderType;
  configs : TypeMap ProviderConfig;
  surroundings : Env;
  errorLog : list (string * Thrown);
}.

Definition Factory : Type -> Type := M ProviderFactory.

(** The factory as its constructor leaves it: every type has its provider. *)
Definition newProviderFactory (instances : ProviderType -> AIProvider) (w : Env)
    : ProviderFactory :=
  {| providers := fun type => Some (instances type);
     activeProvider := openai;
     configs := fun _ => None;
     surroundings := w;
     errorLog := [] |}.

Definition with_activeProvider (type : ProviderType) (f : ProviderFactory)
    : ProviderFactory :=
  {| providers := providers f; activeProvider := type; configs := configs f;
     surroundings := surroundings f; errorLog := errorLog f |}.

Definition with_configs (g : TypeMap ProviderConfig -> TypeMap ProviderConfig)
    (f : ProviderFactory) : ProviderFactory :=
  {| providers := providers f; activeProvider := activeProvider f;
     configs := g (configs f); surroundings := surroundings f;
     errorLog := errorLog f |}.

Definition console_error (line : string) (error : Thrown) (f : ProviderFactory)
    : ProviderFactory :=
  {| providers := providers f; activeProvider := activeProvider f;
     configs := configs f; surroundings := surroundings f;
     errorLog := errorLog f ++ [(line, error)] |}.

Definition outsideF {A} (call : Env -> (Thrown + A) * Env) : Factory A :=
  fun f => let (r, w) := call (surroundings f) in
           (r, {| providers := providers f; activeProvider := activeProvider f;
                  configs := configs f; surroundings := w;
                  errorLog := errorLog f |}).

Definition getActiveProvider : Factory AIProvider :=
  let! type := gets activeProvider in
  let! provider := gets (fun f => providers f type) in
  match provider with
  | None =>
      throw (ErrorObject ("Active provider " +:+ providerTypeName type +:+ " not found"))
  | Some provider => ret provider
  end.

Definition setActiveProvider (type : ProviderType) : Factory unit :=
  let! provider := gets (fun f => providers f type) in
  match provider with
  | None => throw (ErrorObject ("Unknown provider type: " +:+ providerTypeName type))
  | Some _ => modify (with_activeProvider type)
  end.

Definition initializeProvider (type : ProviderType) (config : ProviderConfig)
    : Factory unit :=
  let! provider := gets (fun f => providers f type) in
  match provider with
  | None => throw (ErrorObject ("Provider " +:+ providerTypeName type +:+ " not found"))
  | Some provider =>
      run! modify (with_configs (type_set type config)) in
      outsideF (initialize provider config)
  end.

(** One turn of the [for] loop of [initializeAll]. *)
Definition initializeEntry (entry : ProviderType * ProviderConfig) : Factory unit :=
  let (type, config) := entry in
  let! provider := gets (fun f => providers f type) in
  match provider with
  | Some provider =>
      if enabled config then
        try_catch
          (run! outsideF (initialize provider config) in
           modify (with_configs (type_set type config)))
          (fun error =>
             modify (console_error
                       ("Failed to initialize " +:+ providerTypeName type +:+ " provider:")
                       error))
      else ret tt
  | None => ret tt
  end.

(** [initializeAll(configs)], on [Object.entries(configs)]. *)
Fixpoint initializeAll (entries : list (ProviderType * ProviderConfig)) : Factory unit :=
  match entries with
  | [] => ret tt
  | entry :: rest => run! initializeEntry entry in initializeAll rest
  end.

Definition factory_createChatCompletion (request : ChatCompletionRequest)
    : Factory ChatCompletionResponse :=
  let! provider := getActiveProvider in
  outsideF (createChatCompletion provider request).

Definition testProvider (type : ProviderType) : Factory ConnectionTest :=
  let! provider := gets (fun f => providers f type) in
  match provider with
  | None =>
      ret {| ct_success := false;
             ct_error := Some ("Provider " +:+ providerTypeName type +:+ " not found") |}
  | Some provider =>
      let! ready := gets (fun f => isReady provider (surroundings f)) in
      let! early :=
        (if ready then ret None
         else
           let! config := gets (fun f => configs f type) in
           match config with
           | Some config => run! outsideF (initialize provider config) in ret None
           | None =>
               ret (Some {| ct_success := false;
                            ct_error := Some "Provider not initialized" |})
           end) in
      match early with
      | Some answer => ret answer
      | None => outsideF (testConnection provider)
      end
  end.
End ProviderFactory.

(* ================================================================= *)
(** * Notions used in the statements *)

(** A computation that cannot throw. *)
Definition total {S A : Type} (c : M S A) : Prop :=
  forall s, exists a s', c s = (inr a, s').

(** The state a computation ends in, returned or thrown, is related by [R]
    to the state it started from. *)
Definition respects {S : Type} (R : S -> S -> Prop) {A} (c : M S A) : Prop :=
  forall s, R s (snd (c s)).

Section Notions.
Context `{Platform}.

(** The state in which a turn makes its model call. *)
Definition thinkingIn (s : Sys) : Sys := with_self (with_state (with_status thinking)) s.

(** The argument string of a tool call is valid JSON. *)
Definition parses (tc : WireToolCall) : Prop :=
  exists v, JSON_parse (fn_arguments (wire_function tc)) = inr v.



(** The record of model calls is the same. *)
Definition same_calls (s s' : Sys) : Prop := calls s' = calls s.

(** The stored conversation is the same: [messageHistory] and
    [state.messages]. *)
Definition same_history (s s' : Sys) : Prop :=
  messageHistory (self s') = messageHistory (self s)
  /\ messages (state (self s')) = messages (state (self s)).

(** The tool registry is the same. *)
Definition same_tools (s s' : Sys) : Prop := tools (self s') = tools (self s).

(** The three together: what no step of the loop other than the recording of
    a model call changes. *)
Definition settled (s s' : Sys) : Prop :=
  same_calls s s' /\ same_history s s' /\ same_tools s s'.

(** The stored conversation and the tools are the same. *)
Definition kept (s s' : Sys) : Prop := same_history s s' /\ same_tools s s'.

(** The same system with another stored conversation. *)
Definition rehist (h ms : list AgentMessage) (s : Sys) : Sys :=
  with_self (fun a => with_messageHistory h (with_state (with_messages ms) a)) s.

(** A computation that runs the same way whatever the stored conversation. *)
Definition oblivious {A} (c : Exec A) : Prop :=
  forall h ms s, c (rehist h ms s) = (fst (c s), rehist h ms (snd (c s))).

(** The capability occurs in the description, letter case aside. *)
Definition occursIn (capability taskDescription : string) : Prop :=
  exists pre post,
    toLowerCase taskDescription = pre +:+ toLowerCase capability +:+ post.

(** One of the sub-agent's capabilities occurs in the description. *)
Definition suits (taskDescription : string) (subAgent : SubAgent) : Prop :=
  exists capability,
    In capability (capabilities subAgent) /\ occursIn capability taskDescription.

(** Every entry of [subAgents] is filed under the id it carries, as
    [registerSubAgent] files it. *)
Definition filed (o : Orchestrator) : Prop :=
  Forall (fun e => fst e = sa_id (snd e)) (subAgents o).

End Notions.

(** The map built by a run of [set]s. *)
Definition setAll {V : Type} (kvs : list (string * V)) (m : JsMap V) : JsMap V :=
  fold_left (fun m kv => map_set (fst kv) (snd kv) m) kvs m.

Section FurtherNotions.
Context `{Platform}.

(** The state in which [callLLM] starts its work: the call is on record. *)
Definition onRecord (messages : list LLMMessage) (s : Sys) : Sys :=
  {| self := self s; world := world s; calls := calls s ++ [messages] |}.

(** Only the outside world has moved: the agent and the record of calls are
    the same. *)
Definition outsideOnly (s s' : Sys) : Prop :=
  self s' = self s /\ calls s' = calls s.

(** The agent is the same but for its SDK client, and so is the record of
    calls. *)
Definition clientOnly (s s' : Sys) : Prop :=
  self s' = with_zai (zai (self s')) (self s) /\ calls s' = calls s.

(** The agent is the same but for its status and its SDK client. *)
Definition statusOnly (s s' : Sys) : Prop :=
  self s'
  = with_zai (zai (self s'))
      (with_state (with_status (status (state (self s')))) (self s)).

(** [JSON.stringify] threw [e] on a result that [executeToolCall] gave on
    the registry of [s]. *)
Definition unserialised (s : Sys) (e : Thrown) : Prop :=
  exists toolCall s0 r s1,
    tools (self s0) = tools (self s)
    /\ executeToolCall toolCall s0 = (inr r, s1)
    /\ JSON_stringify_result r = inl e.

(** The status a run started in [s] is left in when it throws [e]:
    [thinking], or [executing] when [e] was thrown by [JSON.stringify] on
    the result of a tool. *)
Definition leftAt (s : Sys) (e : Thrown) (st : AgentStatus) : Prop :=
  st = thinking \/ (st = executing /\ unserialised s e).

(** Each message list starts with the one before it. *)
Fixpoint extending (prev : list LLMMessage) (later : list (list LLMMessage)) : Prop :=
  match later with
  | [] => True
  | m :: rest => (exists more, m = prev ++ more) /\ extending m rest
  end.

(** The message lists handed to the model in one run that starts with
    [first]: the first call gets [first] itself, each later call a list that
    starts with the one before it. *)
Definition conversation (first : list LLMMessage) (new : list (list LLMMessage)) : Prop :=
  match new with
  | [] => True
  | m :: rest => m = first /\ extending m rest
  end.

Definition isAssistant (m : AgentMessage) : bool :=
  match am_role m with assistant => true | _ => false end.

(** The message [runAgentLoop] puts into the conversation once per tool
    call of a turn: the assistant's text with all the calls of the turn. *)
Definition echoOf (response : LLMResponse) : LLMMessage :=
  {| msg_role := assistant; msg_content := resp_content response;
     msg_toolCalls := resp_toolCalls response; msg_toolCallId := None |}.

End FurtherNotions.

(** The operation is named in the array of operations. *)
Definition mentions {N} (ops : list (JsValue N)) (op : string) : bool :=
  existsb (fun e => match e with JString s => String.eqb s op | _ => false end) ops.

(** The keys of the result object for an array of operations, in the order
    of the object. *)
Definition resultKeys {N} (ops : list (JsValue N)) : list string :=
  List.filter (mentions ops) ["count"; "sum"; "mean"; "min"; "max"; "median"; "mode"]
  ++ (if mentions ops "variance" || mentions ops "std" then ["variance"; "std"] else [])
  ++ (if mentions ops "quartiles" then ["q1"; "q3"; "iqr"] else []).

(* ================================================================= *)
(** * Sample data *)

Module Sample.

(** A stand-in for [JSON.parse] that agrees with it on the two argument
    strings used below: the empty object parses, and a text cut off after
    its opening brace is a [SyntaxError]. *)
Definition parse (text : string) : Thrown + JSON :=
  if String.eqb text "{}" then inr (JObject [])
  else inl (ErrorObject "Unexpected end of JSON input").

(** A stand-in for [toLowerCase] that agrees with it on the strings used
    below, whose letters are all among a-z and A-Z. *)
Definition lowerLetter (c : ascii) : ascii :=
  let n := nat_of_ascii c in
  if (65 <=? n)%nat && (n <=? 90)%nat then ascii_of_nat (n + 32) else c.

Fixpoint lowerLetters (s : string) : string :=
  match s with
  | EmptyString => EmptyString
  | String c rest => String (lowerLetter c) (lowerLetters rest)
  end.

(** A world that is a clock, and a default back end that answers every
    request with [reply].  The provider registry has no adapter to offer,
    and every tool result can be serialised. *)
Definition scripted (reply : ZaiResponse) : Platform := {|
  Env := Z;
  JSON_parse := parse;
  JSON_stringify := fun _ => "{}";
  JSON_stringify_result := fun _ => inr "{}";
  toLowerCase := lowerLetters;
  JSON_stringify_indented := fun _ => "{}";
  String_of := fun _ => "";
  uuidv4 := fun w => ("6f1c2a9e-0b7d-4c3a-9e55-2d8c41f0a7b3", w);
  Date_now := fun w => (w, (w + 1)%Z);
  ZAI_create := fun w => (inr tt, w);
  zai_chat_completions_create := fun _ w => (inr reply, w);
  providerFactory_createChatCompletion :=
    fun _ w => (inl (ErrorObject "Provider not found"), w);
|}.

Definition requesting (arguments : string) (reason : FinishReason) : ZaiResponse :=
  {| zai_choices :=
       [{| zc_content := Some "Let me look that up.";
           zc_tool_calls :=
             Some [{| wire_id := "call_1";
                      wire_function := {| fn_name := "web_search";
                                          fn_arguments := arguments |} |}];
           finish_reason := reason |}];
     zai_usage := None |}.

(** The model asks for a tool with well-formed arguments, on every turn. *)
Definition asksForTool : ZaiResponse := requesting "{}" tool_calls.

(** The model asks for a tool with arguments that are not JSON. *)
Definition asksBadly : ZaiResponse := requesting "{" tool_calls.

(** The model answers. *)
Definition answers : ZaiResponse :=
  {| zai_choices := [{| zc_content := Some "42"; zc_tool_calls := None;
                        finish_reason := stop |}];
     zai_usage := None |}.

Definition someConfig : AgentConfig :=
  {| id := "agent-1"; cfg_name := "Agent"; cfg_description := "";
     role := specialist; domain := general; model := None; temperature := None;
     maxTokens := None; systemPrompt := None |}.

(** An agent with no tools, fresh from its constructor. *)
Definition bare `{Platform} : Agent :=
  {| config := someConfig;
     state := {| status := idle; currentTask := None; lastActivity := None;
                 messages := []; context := [] |};
     tools := [];
     zai := false;
     messageHistory := [];
     providerType := openai;
     providerConfig := {| pc_apiKey := None; pc_baseUrl := None; pc_model := None |} |}.

Definition start `{Platform} (w : Env) : Sys := {| self := bare; world := w; calls := [] |}.

Definition hello : list LLMMessage :=
  [{| msg_role := user; msg_content := "search the web for X"; msg_toolCalls := None;
      msg_toolCallId := None |}].

Definition someTask : Task :=
  {| task_id := "task-1"; task_description := "search the web for X";
     priority := medium; task_status := pending; assignedTo := None;
     delegatedTo := None; parentTaskId := None; subTasks := []; task_result := None;
     createdAt := 0; updatedAt := 0; task_metadata := None |}.

End Sample.

Module SampleTeam.
Import Sample.

(** The world of these samples: a clock and a model that answers. *)
Definition quiet : Platform := scripted answers.

#[local] Existing Instance quiet.

(** A sub-agent that reports success without doing anything. *)
Definition member (i n : string) : AgentRef :=
  {| agent_id := i; agent_name := n;
     agent_execute := fun _ w =>
       (inr {| tr_success := true; output := None; tr_error := None;
               artifacts := None; executionTime := None |}, w) |}.

(** An orchestrator fresh from its constructor. *)
Definition nobody : Orchestrator :=
  {| subAgents := []; pendingTasks := ∅; completedTasks := ∅; outer := 0%Z |}.

(** The scenario of the specification: capabilities ["analytics"] and
    ["search", "web"], registered in that order. *)
Definition team : Orchestrator :=
  registerSubAgent (member "research-orchestrator" "Research Orchestrator")
    ["search"; "web"]
    (registerSubAgent (member "analytics-orchestrator" "Analytics Orchestrator")
       ["analytics"] nobody).

(** A sub-agent that answers with the description of the task it was
    given and the agent the task is assigned to. *)
Definition reporter (i n : string) : AgentRef :=
  {| agent_id := i; agent_name := n;
     agent_execute := fun task w =>
       (inr {| tr_success := true;
               output := Some (JArray [JString (task_description task);
                                       JString (default "" (assignedTo task))]);
               tr_error := None; artifacts := None; executionTime := None |}, w) |}.

(** A sub-agent whose [execute] throws. *)
Definition faulty (i n : string) : AgentRef :=
  {| agent_id := i; agent_name := n;
     agent_execute := fun _ w => (inl (ErrorObject "rate limit exceeded"), w) |}.

Definition crew : Orchestrator :=
  registerSubAgent (faulty "content-orchestrator" "Content Orchestrator")
    ["writing"] team.

(** One registered sub-agent whose id is the empty string. *)
Definition unnamed : Orchestrator :=
  registerSubAgent (member "" "Helper") ["charts"] nobody.

End SampleTeam.

Module SampleEngines.

(** An engine whose calls take up to 4096 arguments. *)
Definition roomy : Engine := {| argumentLimit := 4096 |}.

(** An engine whose calls take one. *)
Definition cramped : Engine := {| argumentLimit := 1 |}.

End SampleEngines.

(** The scenario of the specification: [data = [1, 2, 3, 4, 5]] and
    [operations = ['mean', 'median', 'std']]. *)
Definition scenario {N} `{Number N} : JsValue N :=
  JObject [("data", JArray (map (fun k => JNumber (fromNat k)) [1; 2; 3; 4; 5]));
           ("operations", JArray (map JString ["mean"; "median"; "std"]))].

Module SampleTools.
Import Sample.

#[local] Existing Instance SampleTeam.quiet.

Definition noParameters (n d : string) : ToolDefinition :=
  {| name := n; description := d; parameters := [] |}.

(** A tool that hands its arguments back. *)
Definition echo : Tool :=
  {| definition := noParameters "echo" "Returns its arguments";
     execute := fun args w =>
       (inr {| success := true; data := Some args; error := None; metadata := None |}, w) |}.

(** A tool of the same name with another body. *)
Definition echoTwice : Tool :=
  {| definition := noParameters "echo" "Returns its arguments twice";
     execute := fun args w =>
       (inr {| success := true; data := Some (JArray [args; args]); error := None;
               metadata := None |}, w) |}.

(** A tool whose body throws. *)
Definition broken : Tool :=
  {| definition := noParameters "broken" "Always fails";
     execute := fun _ w => (inl (ErrorObject "disk full"), w) |}.

End SampleTools.

Module SampleProviders.

#[local] Existing Instance SampleTeam.quiet.

(** A provider whose back end cannot be reached. *)
Definition unreachable : AIProvider :=
  {| initialize := fun _ w => (inl (ErrorObject "connect ECONNREFUSED"), w);
     isReady := fun _ => false;
     createChatCompletion := fun _ w => (inl (ErrorObject "connect ECONNREFUSED"), w);
     testConnection := fun w =>
       (inr {| ct_success := false; ct_error := Some "Connection failed" |}, w) |}.

(** A factory fresh from its constructor, all of whose providers are out of
    reach. *)
Definition cutOff : ProviderFactory := newProviderFactory (fun _ => unreachable) 0%Z.

Definition ollamaConfig : ProviderConfig :=
  {| cfg_type := ollama; enabled := true; cfg_apiKey := None;
     cfg_baseUrl := Some "http://localhost:11434"; defaultModel := "llama3";
     availableModels := ["llama3"]; cfg_options := None |}.

End SampleProviders.

(** Two distinct values, and the mode is asked for. *)
Definition tally {N} `{Number N} : JsValue N :=
  JObject [("data", JArray [JNumber (fromNat 4); JNumber (fromNat 2); JNumber (fromNat 4)]);
           ("operations", JArray (map JString ["mode"; "count"]))].

(** Data with an entry that is not a number, and operations in another
    order than the tool's, one of which it does not know. *)
Definition mixed {N} `{Number N} : JsValue N :=
  JObject [("data", JArray [JNumber (fromNat 4); JString "n/a"; JNumber (fromNat 2)]);
           ("operations", JArray (map JString ["quartiles"; "kurtosis"; "std"]))].

(* ================================================================= *)
(** * Properties *)

(** ** General facts about computations *)

Section MonadFacts.
Context {S : Type}.

Lemma bind_returns {A B} (c : M S A) (k : A -> M S B) s a s1 :
  c s = (inr a, s1) -> bind c k s = k a s1.
Proof. intros E. unfold bind. now rewrite E. Qed.

Lemma total_ret {A} (a : A) : total (S := S) (ret a).
Proof. intros s. now exists a, s. Qed.

Lemma total_gets {A} (f : S -> A) : total (S := S) (gets f).
Proof. intros s. now exists (f s), s. Qed.

Lemma total_modify (f : S -> S) : total (S := S) (modify f).
Proof. intros s. now exists tt, (f s). Qed.

Lemma total_bind {A B} (c : M S A) (k : A -> M S B) :
  total (S := S) c -> (forall a, total (S := S) (k a)) -> total (S := S) (bind c k).
Proof.
  intros Hc Hk s. destruct (Hc s) as (a & s1 & E).
  rewrite (bind_returns _ _ _ _ _ E). apply Hk.
Qed.

(** Whatever the body does, a [try] with a handler that cannot throw cannot
    throw. *)
Lemma total_try_catch {A} (c : M S A) (h : Thrown -> M S A) :
  (forall e, total (S := S) (h e)) -> total (S := S) (try_catch c h).
Proof.
  intros Hh s. unfold try_catch.
  destruct (c s) as [[e | a] s1]; [apply Hh | now exists a, s1].
Qed.
End MonadFacts.

(** ** The agent: tool execution and top-level [execute] *)

Section AgentFacts.
Context `{Platform}.

Lemma total_ask {A} (f : Env -> A * Env) : total (ask f).
Proof.
  intros s. unfold ask, outside. destruct (f (world s)) as [a w]. eauto.
Qed.

Lemma total_set_status st : total (set_status st).
Proof. apply total_modify. Qed.

Lemma total_executeToolCall toolCall : total (executeToolCall toolCall).
Proof.
  intros s. unfold executeToolCall, bind, gets, try_catch, outside, ret.
  destruct (map_get (toolName toolCall) (tools (self s))) as [t|]; [|eauto].
  destruct (execute t (arguments toolCall) (world s)) as [[thrown | result] w]; eauto.
Qed.

(** C6.  [executeToolCall] never throws.  A name that is not in the
    registry gives the "Unknown tool" failure, naming the tool, and changes
    nothing.  A registered tool whose body throws gives a failure that
    carries the error message: the [message] of the [Error] thrown, and
    "Unknown error" when what was thrown is not an [Error].  A tool that
    returns gives what it returned. *)
Theorem executeToolCall_never_throws (toolCall : ToolCall) (s : Sys) :
  exists (r : ToolResult) (s' : Sys),
    executeToolCall toolCall s = (inr r, s') /\
    match map_get (toolName toolCall) (tools (self s)) with
    | None =>
        r = {| success := false; data := None;
               error := Some ("Unknown tool: " +:+ toolName toolCall);
               metadata := None |}
        /\ s' = s
    | Some t =>
        match execute t (arguments toolCall) (world s) with
        | (inr result, _) => r = result
        | (inl (ErrorObject message), _) =>
            r = {| success := false; data := None; error := Some message;
                   metadata := None |}
        | (inl (ThrownValue _), _) =>
            r = {| success := false; data := None; error := Some "Unknown error";
                   metadata := None |}
        end
    end.
Proof.
  unfold executeToolCall, bind, gets, try_catch, outside, ret.
  destruct (map_get (toolName toolCall) (tools (self s))) as [t|]; cbn.
  - destruct (execute t (arguments toolCall) (world s))
      as [[[message | shown] | result] w]; cbn; eauto.
  - eauto.
Qed.

(** *** The concrete orchestrators *)

(** When the [try] block of [execute] returns, it returns a success whose
    [executionTime] is the last reading of the clock minus [startTime]. *)
Lemma execute_try_returns o task startTime s r s' :
  execute_try o task startTime s = (inr r, s') ->
  tr_success r = true /\ tr_error r = None /\
  exists endTime w,
    Date_now w = (endTime, world s') /\
    executionTime r = Some (endTime - startTime)%Z.
Proof.
  unfold execute_try, bind, set_status, modify, gets, ask, outside, ret. cbn.
  match goal with |- context [runAgentLoop ?m ?n ?st] =>
    destruct (runAgentLoop m n st) as [[e | lr] s1] end; [discriminate|].
  cbn.
  destruct (Date_now (world s1)) as [now w1] eqn:E1. cbn.
  destruct (Date_now w1) as [endTime w2] eqn:E2. cbn.
  intros [= <- <-]. cbn. split; [|split]; [reflexivity .. |]. now exists endTime, w1.
Qed.

Lemma execute_catch_outcome o startTime thrown s :
  exists endTime w,
    Date_now (world s) = (endTime, w) /\
    execute_catch o startTime thrown s =
      (inr {| tr_success := false; output := None;
              tr_error := Some (errorMessage (unknownErrorText o) thrown);
              artifacts := None; executionTime := Some (endTime - startTime)%Z |},
       {| self := with_state (with_status status_error) (self s);
          world := w; calls := calls s |}).
Proof.
  unfold execute_catch, bind, set_status, modify, ask, outside, ret, with_self. cbn.
  destruct (Date_now (world s)) as [endTime w]. eauto.
Qed.

Lemma total_execute_catch o startTime thrown :
  total (execute_catch o startTime thrown).
Proof.
  unfold execute_catch.
  apply total_bind; [apply total_set_status|]. intros _.
  apply total_bind; [apply total_ask|]. intros endTime.
  apply total_ret.
Qed.

(** [execute] cannot throw, because its handler cannot. *)
Lemma total_execute_orchestrator o task : total (execute_orchestrator o task).
Proof.
  unfold execute_orchestrator.
  apply total_bind; [apply total_ask|]. intros startTime.
  apply total_try_catch. apply total_execute_catch.
Qed.

(** C1.  The public [execute] of each concrete orchestrator never throws,
    for every task, agent, tool registry and behaviour of the back ends.
    Its result carries the time from the clock reading at entry to the
    clock reading made last before returning.  When anything thrown
    escapes the [try] block (the model call, a tool, a delegation, the
    parsing of a tool call), the result is a failure with the message of
    what was thrown, and the agent is left in status [error]. *)
Theorem execute_never_throws (o : ConcreteOrchestrator) (task : Task) (s : Sys) :
  exists (r : TaskResult) (s' : Sys) (startTime endTime : Z) (w0 w : Env),
    execute_orchestrator o task s = (inr r, s') /\
    Date_now (world s) = (startTime, w0) /\
    Date_now w = (endTime, world s') /\
    executionTime r = Some (endTime - startTime)%Z /\
    match execute_try o task startTime
            {| self := self s; world := w0; calls := calls s |} with
    | (inr r', _) => r = r' /\ tr_success r = true
    | (inl thrown, _) =>
        tr_success r = false /\
        tr_error r = Some (errorMessage (unknownErrorText o) thrown) /\
        status (state (self s')) = status_error
    end.
Proof.
  destruct (Date_now (world s)) as [startTime w0] eqn:E0.
  unfold execute_orchestrator, bind, try_catch, ask at 1, outside.
  rewrite E0.
  destruct (execute_try o task startTime
              {| self := self s; world := w0; calls := calls s |})
    as [[thrown | r] s1] eqn:E1.
  - destruct (execute_catch_outcome o startTime thrown s1) as (endTime & w & Ed & Ec).
    rewrite Ec. do 2 eexists. exists startTime, endTime, w0, (world s1).
    split; [reflexivity|]. split; [reflexivity|]. split; [exact Ed|].
    split; [reflexivity|]. rewrite E1. now repeat split.
  - destruct (execute_try_returns _ _ _ _ _ _ E1) as (Hs & _ & endTime & w & Ed & Et).
    exists r, s1, startTime, endTime, w0, w.
    split; [reflexivity|]. split; [reflexivity|]. split; [exact Ed|].
    split; [exact Et|]. rewrite E1. now split.
Qed.
End AgentFacts.

(** ** Relations kept by every step of a computation *)

Section Invariance.
Context {S : Type} (R : S -> S -> Prop).
Hypothesis R_refl : forall s, R s s.
Hypothesis R_trans : forall a b c, R a b -> R b c -> R a c.

Lemma respects_ret {A} (a : A) : respects R (ret a).
Proof. intros s. apply R_refl. Qed.

Lemma respects_lift {A} (r : Thrown + A) : respects R (lift r).
Proof. intros s. apply R_refl. Qed.

Lemma respects_gets {A} (f : S -> A) : respects R (gets f).
Proof. intros s. apply R_refl. Qed.

Lemma respects_bind {A B} (c : M S A) (k : A -> M S B) :
  respects R c -> (forall a, respects R (k a)) -> respects R (bind c k).
Proof.
  intros Hc Hk s. unfold bind. specialize (Hc s).
  destruct (c s) as [[e | a] s1]; cbn in *; [assumption|].
  eapply R_trans; [eassumption | apply Hk].
Qed.

Lemma respects_try_catch {A} (c : M S A) (h : Thrown -> M S A) :
  respects R c -> (forall e, respects R (h e)) -> respects R (try_catch c h).
Proof.
  intros Hc Hh s. unfold try_catch. specialize (Hc s).
  destruct (c s) as [[e | a] s1]; cbn in *; [|assumption].
  eapply R_trans; [eassumption | apply Hh].
Qed.
End Invariance.

(** ** The agent loop *)

Section LoopFacts.
Context `{Platform}.

Lemma settled_refl s : settled s s.
Proof. now repeat split. Qed.

Lemma settled_trans a b c : settled a b -> settled b c -> settled a c.
Proof.
  unfold settled, same_calls, same_history, same_tools.
  intros (? & (? & ?) & ?) (? & (? & ?) & ?). repeat split; congruence.
Qed.

Lemma settled_outside {A} (f : Env -> (Thrown + A) * Env) : respects settled (outside f).
Proof.
  intros s. unfold outside. destruct (f (world s)) as [r w]. now repeat split.
Qed.

Lemma settled_ask {A} (f : Env -> A * Env) : respects settled (ask f).
Proof. apply settled_outside. Qed.

Lemma settled_set_status st : respects settled (set_status st).
Proof. intros s. now repeat split. Qed.

(** Sequencing, [try] and the pure steps keep [settled]; the tactic takes a
    computation apart along them. *)
Ltac settle_step :=
  first
    [ apply (respects_ret settled settled_refl)
    | apply (respects_lift settled settled_refl)
    | apply (respects_gets settled settled_refl)
    | apply settled_outside
    | apply settled_ask
    | apply settled_set_status
    | apply (respects_bind settled settled_trans); [|intros ?]
    | apply (respects_try_catch settled settled_trans); [|intros ?] ].

Lemma settled_executeToolCall toolCall : respects settled (executeToolCall toolCall).
Proof.
  unfold executeToolCall. settle_step; [settle_step|].
  destruct a as [t|]; repeat settle_step.
Qed.

Lemma settled_executeTools response tcs : forall t,
  respects settled (executeTools response tcs t).
Proof.
  induction tcs as [|tc rest IH]; intros t; cbn [executeTools].
  - settle_step.
  - repeat first [apply settled_executeToolCall | apply IH | settle_step].
Qed.

Lemma settled_callProvider request : respects settled (callProvider request).
Proof. unfold callProvider. repeat settle_step. Qed.

Lemma settled_callDefault request : respects settled (callDefault request).
Proof.
  unfold callDefault. settle_step; [settle_step|].
  settle_step.
  - destruct a; repeat settle_step. intros s. now repeat split.
  - repeat settle_step.
Qed.

Lemma settled_requestCompletion messages options :
  respects settled (requestCompletion messages options).
Proof.
  unfold requestCompletion. do 2 (settle_step; [settle_step|]).
  settle_step.
  - destruct a0; repeat first [apply settled_callProvider | settle_step].
  - destruct a1; [settle_step | apply settled_callDefault].
Qed.

(** One call of [callLLM] is recorded as one model call, whether it returns
    or throws, and touches neither the stored conversation nor the tools. *)
Lemma callLLM_effect messages options s :
  calls (snd (callLLM messages options s)) = calls s ++ [messages]
  /\ same_history s (snd (callLLM messages options s))
  /\ same_tools s (snd (callLLM messages options s)).
Proof.
  change (callLLM messages options s)
    with (requestCompletion messages options
            {| self := self s; world := world s; calls := calls s ++ [messages] |}).
  destruct (settled_requestCompletion messages options
              {| self := self s; world := world s; calls := calls s ++ [messages] |})
    as (Hc & Hh & Ht).
  repeat split; try apply Hh; [exact Hc | exact Ht].
Qed.

Lemma kept_refl s : kept s s.
Proof. now repeat split. Qed.

Lemma kept_trans a b c : kept a b -> kept b c -> kept a c.
Proof.
  unfold kept, same_history, same_tools.
  intros ((? & ?) & ?) ((? & ?) & ?). repeat split; congruence.
Qed.

Lemma settled_kept {A} (c : Exec A) : respects settled c -> respects kept c.
Proof. intros Hc s. destruct (Hc s) as (_ & ? & ?). now split. Qed.

Lemma kept_callLLM messages options : respects kept (callLLM messages options).
Proof. intros s. destruct (callLLM_effect messages options s) as (_ & ? & ?). now split. Qed.

Ltac kept_step :=
  first
    [ apply (respects_ret kept kept_refl)
    | apply (respects_lift kept kept_refl)
    | apply kept_callLLM
    | apply settled_kept, settled_ask
    | apply settled_kept, settled_set_status
    | apply settled_kept, settled_executeTools
    | apply (respects_bind kept kept_trans); [|intros ?] ].

Lemma kept_loop remaining : forall all msgs, respects kept (loop remaining all msgs).
Proof.
  induction remaining as [|n IH]; intros all msgs; cbn [loop].
  - repeat kept_step.
  - do 4 (kept_step; [kept_step|]).
    kept_step.
    + destruct (resp_toolCalls a0); repeat kept_step.
    + destruct (isStop (finishReason a0) || noToolCalls a0); repeat first [apply IH | kept_step].
Qed.
(** *** The stored conversation is not read *)

Lemma oblivious_ret {A} (a : A) : oblivious (ret a).
Proof. now intros h ms s. Qed.

Lemma oblivious_lift {A} (r : Thrown + A) : oblivious (lift r).
Proof. now intros h ms s. Qed.

Lemma oblivious_gets {A} (f : Sys -> A) :
  (forall h ms s, f (rehist h ms s) = f s) -> oblivious (gets f).
Proof. intros Hf h ms s. unfold gets. now rewrite Hf. Qed.

Lemma oblivious_modify (f : Sys -> Sys) :
  (forall h ms s, f (rehist h ms s) = rehist h ms (f s)) -> oblivious (modify f).
Proof. intros Hf h ms s. unfold modify. now rewrite Hf. Qed.

Lemma oblivious_outside {A} (f : Env -> (Thrown + A) * Env) : oblivious (outside f).
Proof.
  intros h ms s. unfold outside. cbn. now destruct (f (world s)).
Qed.

Lemma oblivious_bind {A B} (c : Exec A) (k : A -> Exec B) :
  oblivious c -> (forall a, oblivious (k a)) -> oblivious (bind c k).
Proof.
  intros Hc Hk h ms s. unfold bind. rewrite Hc.
  destruct (c s) as [[e | a] s1]; cbn; [reflexivity | apply Hk].
Qed.

Lemma oblivious_try_catch {A} (c : Exec A) (k : Thrown -> Exec A) :
  oblivious c -> (forall e, oblivious (k e)) -> oblivious (try_catch c k).
Proof.
  intros Hc Hk h ms s. unfold try_catch. rewrite Hc.
  destruct (c s) as [[e | a] s1]; cbn; [apply Hk | reflexivity].
Qed.

Ltac oblivious_step :=
  first
    [ apply oblivious_ret
    | apply oblivious_lift
    | apply oblivious_outside
    | apply oblivious_gets; reflexivity
    | apply oblivious_modify; reflexivity
    | apply oblivious_bind; [|intros ?]
    | apply oblivious_try_catch; [|intros ?] ].

Lemma oblivious_executeToolCall toolCall : oblivious (executeToolCall toolCall).
Proof.
  unfold executeToolCall. oblivious_step; [oblivious_step|].
  destruct a; repeat oblivious_step.
Qed.

Lemma oblivious_executeTools response tcs : forall t,
  oblivious (executeTools response tcs t).
Proof.
  induction tcs as [|tc rest IH]; intros t; cbn [executeTools].
  - oblivious_step.
  - repeat first [apply oblivious_executeToolCall | apply IH | oblivious_step].
Qed.

Lemma oblivious_callLLM messages options : oblivious (callLLM messages options).
Proof.
  unfold callLLM, record_call. do 3 (oblivious_step; [oblivious_step|]).
  oblivious_step.
  - destruct a1; unfold callProvider; repeat oblivious_step.
  - destruct a2; [oblivious_step|].
    unfold callDefault. oblivious_step; [oblivious_step|].
    oblivious_step; [|repeat oblivious_step].
    destruct a2; repeat oblivious_step.
Qed.

Lemma oblivious_loop remaining : forall all msgs, oblivious (loop remaining all msgs).
Proof.
  induction remaining as [|n IH]; intros all msgs; cbn [loop]; unfold set_status.
  - repeat oblivious_step.
  - oblivious_step; [oblivious_step|].
    oblivious_step; [apply oblivious_callLLM|].
    do 2 (oblivious_step; [oblivious_step|]).
    oblivious_step.
    + destruct (resp_toolCalls a0); repeat oblivious_step.
    + destruct (isStop (finishReason a0) || noToolCalls a0);
        repeat first [apply IH | apply oblivious_executeTools | oblivious_step].
Qed.

(** C10.  [runAgentLoop] leaves the agent's [messageHistory] and
    [state.messages] as they were, whether it returns or throws, and what
    it returns (the transcript and the result) does not depend on them: the
    transcript is built from the empty list out of the messages of this
    call alone. *)
Theorem runAgentLoop_keeps_history (initialMessages : list LLMMessage)
    (maxIterations : nat) (s : Sys) :
  messageHistory (self (snd (runAgentLoop initialMessages maxIterations s)))
    = messageHistory (self s)
  /\ messages (state (self (snd (runAgentLoop initialMessages maxIterations s))))
      = messages (state (self s))
  /\ forall h ms : list AgentMessage,
      fst (runAgentLoop initialMessages maxIterations (rehist h ms s))
      = fst (runAgentLoop initialMessages maxIterations s).
Proof.
  unfold runAgentLoop.
  destruct (kept_loop maxIterations [] initialMessages s) as ((Hh & Hm) & _).
  repeat split; [exact Hh | exact Hm |].
  intros h ms. now rewrite oblivious_loop.
Qed.
End LoopFacts.

(** ** One turn of the loop *)

Section Turns.
Context `{Platform}.

Lemma parseToolCalls_parses tcs :
  Forall parses tcs -> exists cs, parseToolCalls tcs = inr cs.
Proof.
  induction 1 as [|tc rest (v & Hv) _ (cs & IH)]; cbn [parseToolCalls].
  - now exists [].
  - unfold parseToolCall. rewrite Hv, IH. eauto.
Qed.

(** If some argument string does not parse, [parseToolCalls] throws what
    [JSON.parse] threw on one of them. *)
Lemma parseToolCalls_throws tcs tc e0 :
  In tc tcs -> JSON_parse (fn_arguments (wire_function tc)) = inl e0 ->
  exists e tc',
    parseToolCalls tcs = inl e /\
    In tc' tcs /\ JSON_parse (fn_arguments (wire_function tc')) = inl e.
Proof.
  induction tcs as [|c rest IH]; [intros []|].
  intros Hin He0. cbn [parseToolCalls]. unfold parseToolCall.
  destruct (JSON_parse (fn_arguments (wire_function c))) as [e | v] eqn:Ec.
  - exists e, c. repeat split; [now left | exact Ec].
  - destruct Hin as [-> | Hin]; [congruence|].
    destruct (IH Hin He0) as (e & tc' & -> & Hin' & He).
    exists e, tc'. repeat split; [now right | exact He].
Qed.



(** C3 (as amended).  A turn of the loop ([runAgentLoop] is
    [loop maxIterations [] initialMessages], and every later turn is a
    [loop] again) in which the model's response carries a tool call whose
    argument string is not valid JSON throws: what comes out is an error
    raised by [JSON.parse] on one of the argument strings.  The turn has
    made its one model call, and nothing else has happened but the drawing
    of an id and a reading of the clock for the assistant message: no tool
    has been executed and the agent is as the model call left it. *)
Theorem loop_throws_on_invalid_arguments (remaining : nat) (all : list AgentMessage)
    (msgs : list LLMMessage) (s : Sys) (response : LLMResponse) (s1 : Sys)
    (tcs : list WireToolCall) (tc : WireToolCall) (e0 : Thrown) :
  callLLM msgs None (thinkingIn s) = (inr response, s1) ->
  resp_toolCalls response = Some tcs ->
  In tc tcs ->
  JSON_parse (fn_arguments (wire_function tc)) = inl e0 ->
  exists (e : Thrown) (s' : Sys),
    loop (S remaining) all msgs s = (inl e, s') /\
    (exists tc', In tc' tcs /\ JSON_parse (fn_arguments (wire_function tc')) = inl e) /\
    calls s' = calls s ++ [msgs] /\
    self s' = self s1 /\
    (exists i w1 now, uuidv4 (world s1) = (i, w1) /\ Date_now w1 = (now, world s')).
Proof.
  intros Hcall Htcs Hin He0.
  assert (Hcalls : calls s1 = calls s ++ [msgs]).
  { generalize (proj1 (callLLM_effect msgs None (thinkingIn s))). now rewrite Hcall. }
  destruct (parseToolCalls_throws _ _ _ Hin He0) as (e & tc' & Hp & Hin' & He).
  cbn [loop].
  unfold bind at 1. unfold set_status at 1. unfold modify at 1. fold (thinkingIn s).
  unfold bind at 1. rewrite Hcall.
  unfold bind at 1. unfold ask at 1. unfold outside at 1.
  destruct (uuidv4 (world s1)) as [i w1] eqn:Eu.
  unfold bind at 1. unfold ask at 1. unfold outside at 1. cbn [world self calls].
  destruct (Date_now w1) as [now w2] eqn:Ed.
  unfold bind at 1. rewrite Htcs. unfold bind at 1. unfold lift. rewrite Hp.
  do 2 eexists. split; [reflexivity|]. cbn [calls self world].
  repeat split; eauto.
Qed.

(** C4 (as amended).  For an agent with no registered tools and
    [maxIterations >= 1]: the request built for the model carries no tool
    schemas, and if the model call throws, or its response has finish reason
    [stop] or no tool calls, then [runAgentLoop] is over after exactly that
    one model call. *)
Theorem runAgentLoop_without_tools (initialMessages : list LLMMessage)
    (maxIterations : nat) (s : Sys) :
  tools (self s) = [] ->
  1 <= maxIterations ->
  match callLLM initialMessages None (thinkingIn s) with
  | (inr response, _) =>
      finishReason response = stop \/ noToolCalls response = true
  | (inl _, _) => True
  end ->
  req_tools (buildRequest (self (thinkingIn s)) initialMessages None) = None
  /\ calls (snd (runAgentLoop initialMessages maxIterations s))
     = calls s ++ [initialMessages].
Proof.
  intros Htools Hmax Hresp. split.
  { unfold buildRequest, getToolDefinitions. cbn. now rewrite Htools. }
  destruct maxIterations as [|n]; [lia|].
  generalize (proj1 (callLLM_effect initialMessages None (thinkingIn s))).
  unfold runAgentLoop. cbn [loop].
  unfold bind at 1. unfold set_status at 1. unfold modify at 1. fold (thinkingIn s).
  unfold bind at 1.
  destruct (callLLM initialMessages None (thinkingIn s)) as [[e | response] s1];
    cbn [snd]; [auto|].
  intros Hcalls.
  unfold bind at 1. unfold ask at 1. unfold outside at 1.
  destruct (uuidv4 (world s1)) as [i w1].
  unfold bind at 1. unfold ask at 1. unfold outside at 1. cbn [world self calls].
  destruct (Date_now w1) as [now w2].
  unfold bind at 1.
  assert (Hdone : isStop (finishReason response) || noToolCalls response = true).
  { destruct Hresp as [-> | ->]; [reflexivity | apply orb_true_r]. }
  destruct (resp_toolCalls response) as [tcs|] eqn:Etcs.
  - unfold bind at 1. unfold lift.
    destruct (parseToolCalls tcs) as [e | cs]; [exact Hcalls|].
    unfold ret at 1. rewrite Hdone.
    unfold bind, set_status, modify, ret. exact Hcalls.
  - unfold ret at 1. rewrite Hdone.
    unfold bind, set_status, modify, ret. exact Hcalls.
Qed.
End Turns.

(** ** Sample runs *)

Section SampleRuns.
Import Sample.

(** An unknown tool is reported, not thrown. *)
Example unknown_tool_is_reported :
  fst (executeToolCall (H := scripted answers)
         {| tc_id := "call_1"; toolName := "web_search"; arguments := JObject [] |}
         (start (H := scripted answers) 0%Z))
  = inr {| success := false; data := None;
           error := Some "Unknown tool: web_search"; metadata := None |}.
Proof. reflexivity. Qed.

(** [execute] turns what the loop throws into a failure, and times it. *)
Example execute_reports_what_was_thrown :
  fst (execute_orchestrator (H := scripted asksBadly) ContentOrchestrator someTask
         (start (H := scripted asksBadly) 0%Z))
  = inr {| tr_success := false; output := None;
           tr_error := Some "Unexpected end of JSON input";
           artifacts := None; executionTime := Some 2%Z |}.
Proof. reflexivity. Qed.

Example execute_reports_the_answer :
  fst (execute_orchestrator (H := scripted answers) MasterOrchestrator someTask
         (start (H := scripted answers) 0%Z))
  = inr {| tr_success := true; output := Some (JString "42"); tr_error := None;
           artifacts := None; executionTime := Some 3%Z |}.
Proof. reflexivity. Qed.

(** C3, counterexample.  The model asks for a tool with the argument string
    "{": [runAgentLoop] throws the [SyntaxError] after its first model call;
    no failed tool result is recorded and there is no next turn. *)
Lemma invalid_arguments_abort_the_loop :
  fst (runAgentLoop (H := scripted asksBadly) hello 10
         (start (H := scripted asksBadly) 0%Z))
  = inl (ErrorObject "Unexpected end of JSON input")
  /\ List.length (calls (snd (runAgentLoop (H := scripted asksBadly) hello 10
                                (start (H := scripted asksBadly) 0%Z)))) = 1.
Proof. split; reflexivity. Qed.

(** C4, counterexample.  An agent with no tools, [maxIterations = 2], and a
    model that asks for a tool all the same: the call is answered with
    "Unknown tool" and the loop makes a second model call. *)
Lemma no_tools_two_model_calls :
  tools (self (start (H := scripted asksForTool) 0%Z)) = []
  /\ 1 <= 2
  /\ List.length (calls (snd (runAgentLoop (H := scripted asksForTool) hello 2
                                (start (H := scripted asksForTool) 0%Z)))) = 2
  /\ match fst (runAgentLoop (H := scripted asksForTool) hello 2
                  (start (H := scripted asksForTool) 0%Z)) with
     | inr r =>
         map (fun m => error <$> am_toolResult m) (lr_messages r)
         = [None; Some (Some "Unknown tool: web_search");
            None; Some (Some "Unknown tool: web_search")]
         /\ lr_result r = JString "Maximum iterations reached"
     | inl _ => False
     end.
Proof.
  split; [reflexivity|]. split; [lia|]. split; [reflexivity|].
  vm_compute. split; reflexivity.
Qed.

End SampleRuns.

Section SampleWitnesses.
Import Sample.


(** C3 at work: the model of [asksBadly]. *)
Lemma loop_throws_on_invalid_arguments_witness :
  let s0 := start (H := scripted asksBadly) 0%Z in
  let s1 := snd (callLLM (H := scripted asksBadly) hello None (thinkingIn s0)) in
  exists e s',
    loop (H := scripted asksBadly) 10 [] hello s0 = (inl e, s')
    /\ (exists tc',
          In tc' [{| wire_id := "call_1";
                     wire_function := {| fn_name := "web_search";
                                         fn_arguments := "{" |} |}]
          /\ JSON_parse (Platform := scripted asksBadly)
               (fn_arguments (wire_function tc')) = inl e)
    /\ calls s' = calls s0 ++ [hello]
    /\ self s' = self s1
    /\ (exists i w1 now,
          uuidv4 (Platform := scripted asksBadly) (world s1) = (i, w1)
          /\ Date_now (Platform := scripted asksBadly) w1 = (now, world s')).
Proof.
  intros s0 s1.
  apply (loop_throws_on_invalid_arguments (H := scripted asksBadly) 9 [] hello s0
           {| resp_content := "Let me look that up.";
              resp_toolCalls :=
                Some [{| wire_id := "call_1";
                         wire_function := {| fn_name := "web_search";
                                             fn_arguments := "{" |} |}];
              finishReason := tool_calls;
              usage := None |}
           s1 _
           {| wire_id := "call_1";
              wire_function := {| fn_name := "web_search"; fn_arguments := "{" |} |}
           (ErrorObject "Unexpected end of JSON input")).
  - reflexivity.
  - reflexivity.
  - left. reflexivity.
  - reflexivity.
Defined.

(** C4 at work: the bare agent and the model of [answers]. *)
Lemma runAgentLoop_without_tools_witness :
  tools (self (start (H := scripted answers) 0%Z)) = []
  /\ 1 <= 20
  /\ req_tools (buildRequest
                  (self (thinkingIn (H := scripted answers)
                           (start (H := scripted answers) 0%Z))) hello None) = None
  /\ calls (snd (runAgentLoop (H := scripted answers) hello 20
                   (start (H := scripted answers) 0%Z)))
     = calls (start (H := scripted answers) 0%Z) ++ [hello].
Proof.
  split; [reflexivity|]. split; [lia|].
  apply (runAgentLoop_without_tools (H := scripted answers) hello 20
           (start (H := scripted answers) 0%Z)).
  - reflexivity.
  - lia.
  - left. reflexivity.
Defined.

(** C6 at work: a registered tool whose body throws an [Error], and a name
    that is not in the registry. *)
Lemma executeToolCall_never_throws_witness :
  fst (executeToolCall (H := scripted answers)
         {| tc_id := "call_2"; toolName := "broken"; arguments := JObject [] |}
         (with_self (registerTool SampleTools.broken)
            (start (H := scripted answers) 0%Z)))
  = inr {| success := false; data := None; error := Some "disk full";
           metadata := None |}
  /\ fst (executeToolCall (H := scripted answers)
            {| tc_id := "call_1"; toolName := "web_search"; arguments := JObject [] |}
            (with_self (registerTool SampleTools.broken)
               (start (H := scripted answers) 0%Z)))
     = inr {| success := false; data := None;
              error := Some "Unknown tool: web_search"; metadata := None |}.
Proof.
  split.
  - destruct (executeToolCall_never_throws (H := scripted answers)
                {| tc_id := "call_2"; toolName := "broken"; arguments := JObject [] |}
                (with_self (registerTool SampleTools.broken)
                   (start (H := scripted answers) 0%Z))) as (r & s' & E & Hr).
    rewrite E. cbn in Hr. now rewrite Hr.
  - destruct (executeToolCall_never_throws (H := scripted answers)
                {| tc_id := "call_1"; toolName := "web_search"; arguments := JObject [] |}
                (with_self (registerTool SampleTools.broken)
                   (start (H := scripted answers) 0%Z))) as (r & s' & E & Hr).
    rewrite E. cbn in Hr. destruct Hr as [Hr _]. now rewrite Hr.
Defined.
End SampleWitnesses.

(** ** The orchestrator: delegation *)

Section DelegationFacts.
Context `{Platform}.

Lemma settle_outcome st result task o :
  exists now w,
    Date_now (outer o) = (now, w) /\
    settle st result task o =
      (inr {| returned := result; created := Some (with_outcome st result now task) |},
       {| subAgents := subAgents o;
          pendingTasks := delete (task_id task) (pendingTasks o);
          completedTasks := insert (task_id task) result (completedTasks o);
          outer := w |}).
Proof.
  unfold settle, bind, askO, outsideO, modify, ret.
  destruct (Date_now (outer o)) as [now w]. exists now, w. split; reflexivity.
Qed.

Lemma total_askO {A} (f : Env -> A * Env) : total (askO f).
Proof.
  intros o. unfold askO, outsideO. destruct (f (outer o)) as [a w]. eauto.
Qed.

Lemma total_settle st result task : total (settle st result task).
Proof.
  unfold settle.
  apply total_bind; [apply total_askO|]. intros now.
  do 2 (apply total_bind; [apply total_modify|]; intros _).
  apply total_ret.
Qed.

(** [delegateTask] cannot throw, whatever the agent id and the sub-agent. *)
Lemma total_delegateTask agentId taskDescription context :
  total (delegateTask agentId taskDescription context).
Proof.
  unfold delegateTask, delegation.
  apply total_bind; [|intros d; apply total_ret].
  apply total_bind; [apply total_gets|]. intros [subAgent|]; [|apply total_ret].
  do 3 (apply total_bind; [apply total_askO|]; intros ?).
  apply total_bind; [apply total_modify|]. intros _.
  apply total_try_catch. intros thrown. apply total_settle.
Qed.

Lemma delegateTask_returns agentId taskDescription context o d o' :
  delegation agentId taskDescription context o = (inr d, o') ->
  delegateTask agentId taskDescription context o = (inr (returned d), o').
Proof. intros E. unfold delegateTask. now rewrite (bind_returns _ _ _ _ _ E). Qed.

(** C5.  [delegateTask] with an agent id that is not in [subAgents] returns
    a failure ("Sub-agent not found") without throwing and leaves the
    orchestrator exactly as it was: [pendingTasks], [completedTasks] and
    everything else are unchanged, and no task has been created. *)
Theorem delegateTask_unknown_agent (agentId taskDescription : string)
    (context : JSON) (o : Orchestrator) :
  map_get agentId (subAgents o) = None ->
  delegateTask agentId taskDescription context o =
    (inr {| tr_success := false; output := None;
            tr_error := Some ("Sub-agent not found: " +:+ agentId);
            artifacts := None; executionTime := None |}, o)
  /\ (exists d, delegation agentId taskDescription context o = (inr d, o)
                /\ created d = None).
Proof.
  intros Hnone. unfold delegateTask, delegation, bind, gets, ret.
  rewrite Hnone. split; [reflexivity|]. eexists. split; reflexivity.
Qed.

(** C2.  [delegateTask] with a registered agent id returns, whether the
    sub-agent's [execute] returns or throws.  The task it created has the id
    drawn at the start; on return that id is not in [pendingTasks] and is in
    [completedTasks] with the returned result; the task's status is
    [completed] when the result has [success = true] and [failed] otherwise;
    its [result] is the returned result; its [updatedAt] is the clock
    reading made last; and what the sub-agent threw, if it threw, has become
    a result with [success = false] carrying the message. *)
Theorem delegateTask_moves_task (agentId taskDescription : string)
    (context : JSON) (o : Orchestrator) (subAgent : SubAgent) :
  map_get agentId (subAgents o) = Some subAgent ->
  exists (d : Delegation) (o' : Orchestrator) (task : Task)
         (i : string) (c u : Z) (w1 w2 w3 : Env),
    delegation agentId taskDescription context o = (inr d, o') /\
    delegateTask agentId taskDescription context o = (inr (returned d), o') /\
    uuidv4 (outer o) = (i, w1) /\ Date_now w1 = (c, w2) /\ Date_now w2 = (u, w3) /\
    created d = Some task /\
    task_id task = i /\
    pendingTasks o' !! i = None /\
    completedTasks o' !! i = Some (returned d) /\
    task_status task = (if tr_success (returned d) then completed else failed) /\
    task_result task = Some (returned d) /\
    (exists w, Date_now w = (updatedAt task, outer o')) /\
    match agent_execute (agent subAgent)
            (newTask i c u agentId taskDescription context) w3 with
    | (inr result, _) => returned d = result
    | (inl thrown, _) =>
        returned d = failedResult thrown /\ tr_success (returned d) = false
    end.
Proof.
  intros Hsome.
  destruct (uuidv4 (outer o)) as [i w1] eqn:Ei.
  destruct (Date_now w1) as [c w2] eqn:Ec.
  destruct (Date_now w2) as [u w3] eqn:Eu.
  assert (exists d o', delegation agentId taskDescription context o = (inr d, o')
            /\ pendingTasks o' !! i = None
            /\ completedTasks o' !! i = Some (returned d)
            /\ (exists now w, Date_now w = (now, outer o')
                 /\ created d =
                    Some (with_outcome
                            (if tr_success (returned d) then completed else failed)
                            (returned d) now
                            (newTask i c u agentId taskDescription context)))
            /\ match agent_execute (agent subAgent)
                       (newTask i c u agentId taskDescription context) w3 with
               | (inr result, _) => returned d = result
               | (inl thrown, _) =>
                   returned d = failedResult thrown /\ tr_success (returned d) = false
               end) as (d & o' & Hd & Hp & Hc & (now & w & Hw & Ht) & Hx).
  { unfold delegation.
    unfold bind at 1. unfold gets. rewrite Hsome.
    unfold bind at 1. unfold askO at 1. unfold outsideO at 1. rewrite Ei.
    unfold bind at 1. unfold askO at 1. unfold outsideO at 1.
    cbn [outer with_outer]. rewrite Ec.
    unfold bind at 1. unfold askO at 1. unfold outsideO at 1.
    cbn [outer with_outer]. rewrite Eu.
    unfold bind at 1. unfold modify at 1.
    unfold try_catch. unfold bind at 1. unfold outsideO at 1.
    cbn [outer with_outer with_pendingTasks subAgents pendingTasks completedTasks].
    destruct (agent_execute (agent subAgent)
                (newTask i c u agentId taskDescription context) w3)
      as [[thrown | result] w4];
      match goal with |- context [settle ?st ?r ?t ?o0] =>
        destruct (settle_outcome st r t o0) as (now & w & Ed & ->) end;
      do 2 eexists; (split; [reflexivity|]); cbn;
      (split; [apply lookup_delete_eq|]);
      (split; [apply lookup_insert_eq|]);
      (split; [exists now; eexists; split; [exact Ed | reflexivity]|]);
      try split; reflexivity. }
  exists d, o', (with_outcome (if tr_success (returned d) then completed else failed)
                   (returned d) now (newTask i c u agentId taskDescription context)).
  exists i, c, u, w1, w2, w3.
  split; [exact Hd|]. split; [exact (delegateTask_returns _ _ _ _ _ _ Hd)|].
  split; [reflexivity|]. split; [exact Ec|]. split; [exact Eu|].
  split; [exact Ht|]. split; [reflexivity|].
  split; [exact Hp|]. split; [exact Hc|].
  split; [reflexivity|]. split; [reflexivity|].
  split; [exists w; exact Hw | exact Hx].
Qed.
End DelegationFacts.

(** ** The orchestrator: agent selection *)

Lemma prefix_spec (t s : string) :
  String.prefix t s = true <-> exists post, s = t +:+ post.
Proof.
  revert s. induction t as [|c t IH]; intros s.
  - split; [intros _; now exists s | intros _; now destruct s].
  - destruct s as [|d s]; cbn.
    + split; [discriminate | intros (post & Hp); discriminate].
    + destruct (Ascii.ascii_dec c d) as [-> | Hne]; split.
      * intros Hp. apply IH in Hp as (post & ->). now exists post.
      * intros (post & [= ->]). apply IH. now exists post.
      * discriminate.
      * intros (post & [= -> _]). congruence.
Qed.

(** [s.includes(t)] holds exactly when [t] occurs in [s]. *)
Lemma includes_spec (s t : string) :
  includes s t = true <-> exists pre post, s = pre +:+ t +:+ post.
Proof.
  induction s as [|c s IH]; cbn [includes].
  - rewrite orb_false_r, prefix_spec. split.
    + intros (post & ->). now exists "", post.
    + intros ([|d pre] & post & Hs); [now exists post | discriminate].
  - rewrite orb_true_iff, prefix_spec, IH. split.
    + intros [(post & ->) | (pre & post & ->)].
      * now exists "", post.
      * now exists (String c pre), post.
    + intros ([|d pre] & post & Hs).
      * left. now exists post.
      * right. injection Hs as -> ->. now exists pre, post.
Qed.

Section SelectionFacts.
Context `{Platform}.

Lemma capable_spec taskDescription subAgent :
  capable (toLowerCase taskDescription) subAgent = true
  <-> suits taskDescription subAgent.
Proof.
  unfold capable, suits, occursIn. rewrite existsb_exists.
  split; intros (c & Hin & Hc); exists c; (split; [exact Hin|]);
    now apply includes_spec.
Qed.

Lemma firstCapable_first task pre i subAgent post :
  Forall (fun e => capable task (snd e) = false) pre ->
  capable task subAgent = true ->
  firstCapable task (pre ++ (i, subAgent) :: post) = Some i.
Proof.
  induction 1 as [|[k a] pre Hk _ IH]; intros Hc; cbn in *.
  - now rewrite Hc.
  - rewrite Hk. now apply IH.
Qed.

Lemma firstCapable_none task entries :
  firstCapable task entries = None
  <-> Forall (fun e => capable task (snd e) = false) entries.
Proof.
  induction entries as [|[k a] rest IH]; cbn.
  - split; [constructor | reflexivity].
  - destruct (capable task a) eqn:Ec.
    + split; [discriminate | intros Hall; inversion Hall; cbn in *; congruence].
    + rewrite IH. split; [now constructor | now inversion 1].
Qed.

Lemma map_set_Forall {V} (P : string * V -> Prop) k v (m : JsMap V) :
  (forall k', String.eqb k k' = true -> P (k', v)) ->
  Forall P m -> Forall P (map_set k v m).
Proof.
  intros Hv. induction 1 as [|[k' v'] rest Hk' Hrest IH]; cbn.
  - constructor; [|constructor]. apply Hv, String.eqb_refl.
  - destruct (String.eqb k k') eqn:E; constructor; auto.
Qed.

Lemma registerSubAgent_filed a caps o : filed o -> filed (registerSubAgent a caps o).
Proof.
  unfold filed. cbn. apply map_set_Forall.
  intros k' E. apply String.eqb_eq in E. now subst.
Qed.

(** What [selectBestAgent] computes.  The first sub-agent in the order of
    [subAgents] that suits the description is selected, whatever the ids.
    When none suits, the first sub-agent is selected if its id is not the
    empty string.  With no empty id among the sub-agents, the result is
    [null] exactly when no sub-agent is registered. *)
Lemma selectBestAgent_spec (taskDescription : string) (o : Orchestrator) :
  (forall pre i subAgent post,
      subAgents o = pre ++ (i, subAgent) :: post ->
      Forall (fun e => ~ suits taskDescription (snd e)) pre ->
      suits taskDescription subAgent ->
      selectBestAgent taskDescription o = Some i)
  /\ (forall k first rest,
        subAgents o = (k, first) :: rest ->
        Forall (fun e => ~ suits taskDescription (snd e)) (subAgents o) ->
        sa_id first <> "" ->
        selectBestAgent taskDescription o = Some (sa_id first))
  /\ (filed o ->
      Forall (fun e => sa_id (snd e) <> "") (subAgents o) ->
      (selectBestAgent taskDescription o = None <-> subAgents o = [])).
Proof.
  assert (Hno : forall l,
             Forall (fun e : string * SubAgent => ~ suits taskDescription (snd e)) l ->
             Forall (fun e => capable (toLowerCase taskDescription) (snd e) = false) l).
  { intros l Hl. eapply Forall_impl; [exact Hl|]. intros e He. cbn in *.
    destruct (capable (toLowerCase taskDescription) (snd e)) eqn:Ec; [|reflexivity].
    now apply capable_spec in Ec. }
  unfold selectBestAgent. split; [|split].
  - intros pre i subAgent post -> Hpre Hs.
    rewrite (firstCapable_first _ _ _ _ _ (Hno _ Hpre)); [reflexivity|].
    now apply capable_spec.
  - intros k first rest E Hall Hid.
    rewrite (proj2 (firstCapable_none _ _) (Hno _ Hall)).
    unfold firstAgentId. rewrite E. cbn.
    destruct (String.eqb (sa_id first) "") eqn:Ee; [|reflexivity].
    now apply String.eqb_eq in Ee.
  - intros Hfiled Hids. split.
    + destruct (subAgents o) as [|[k first] rest] eqn:E; [reflexivity|].
      intros Hsel. exfalso.
      unfold filed in Hfiled. rewrite E in Hfiled.
      inversion Hfiled as [|? ? Hk _]; subst.
      inversion Hids as [|? ? Hid _]; subst.
      cbn in *. destruct (capable (toLowerCase taskDescription) first).
      * subst k. discriminate.
      * destruct (firstCapable (toLowerCase taskDescription) rest); [discriminate|].
        unfold firstAgentId in Hsel. cbn in Hsel.
        destruct (String.eqb (sa_id first) "") eqn:Ee; [|discriminate].
        now apply String.eqb_eq in Ee.
    + intros ->. reflexivity.
Qed.
End SelectionFacts.

Section SampleSelections.
Import SampleTeam.
#[local] Existing Instance quiet.

Example selects_second_agent :
  selectBestAgent "search the web for X" team = Some "research-orchestrator".
Proof. reflexivity. Qed.

Example selects_first_agent_by_default :
  selectBestAgent "translate this page" team = Some "analytics-orchestrator".
Proof. reflexivity. Qed.

Example selects_case_insensitively :
  selectBestAgent "Run ANALYTICS on the sales data" team = Some "analytics-orchestrator".
Proof. reflexivity. Qed.

Example selects_nobody_when_empty :
  selectBestAgent "search the web for X" nobody = None.
Proof. reflexivity. Qed.

(** C8, the failing input.  One sub-agent is registered, under the empty
    id, and none of its capabilities occurs in the description: the fallback
    [firstAgent?.id || null] yields [null], although a sub-agent is
    registered and the comment on that line reads "Return first available
    agent if no match".  On a description that matches, the same sub-agent's
    id is returned as it is. *)
Lemma selectBestAgent_empty_id :
  map sa_id (getAvailableAgents unnamed) = [""]
  /\ selectBestAgent "search the web for X" unnamed = None
  /\ selectBestAgent "draw charts" unnamed = Some "".
Proof. repeat split. Qed.
End SampleSelections.

Section SampleDelegations.
Import SampleTeam.
#[local] Existing Instance quiet.

(** C5 at work: nobody is registered under "content-orchestrator" in [team]. *)
Lemma delegateTask_unknown_agent_witness :
  map_get "content-orchestrator" (subAgents team) = None
  /\ delegateTask "content-orchestrator" "write a summary" JUndefined team =
       (inr {| tr_success := false; output := None;
               tr_error := Some "Sub-agent not found: content-orchestrator";
               artifacts := None; executionTime := None |}, team).
Proof.
  split; [reflexivity|].
  apply (delegateTask_unknown_agent "content-orchestrator" "write a summary"
           JUndefined team).
  reflexivity.
Defined.

(** C2 at work: a delegation to the sub-agent of [crew] that throws. *)
Lemma delegateTask_moves_task_witness :
  exists d o' task,
    delegation "content-orchestrator" "write a summary" JUndefined crew = (inr d, o')
    /\ created d = Some task
    /\ pendingTasks o' !! task_id task = None
    /\ completedTasks o' !! task_id task = Some (returned d)
    /\ task_status task = failed
    /\ tr_success (returned d) = false
    /\ tr_error (returned d) = Some "rate limit exceeded".
Proof.
  destruct (delegateTask_moves_task "content-orchestrator" "write a summary"
              JUndefined crew
              {| sa_id := "content-orchestrator"; sa_name := "Content Orchestrator";
                 agent := faulty "content-orchestrator" "Content Orchestrator";
                 capabilities := ["writing"] |} eq_refl)
    as (d & o' & task & i & c & u & w1 & w2 & w3 & Hd & _ & Hi & Hc & Hu & Ht & Hid
        & Hp & Hdone & Hst & _ & _ & Hx).
  injection Hi as <- <-. injection Hc as <- <-. injection Hu as <- <-.
  cbn in Hx. destruct Hx as (Hr & Hf).
  exists d, o', task. rewrite Hid.
  repeat (split; [assumption|]).
  split; [now rewrite Hst, Hf|]. split; [exact Hf | now rewrite Hr].
Defined.

Example delegation_to_a_member_that_returns :
  match delegation "research-orchestrator" "search the web for X" JUndefined crew with
  | (inr d, o') =>
      tr_success (returned d) = true
      /\ (task_status <$> created d) = Some completed
      /\ size (pendingTasks o') = 0 /\ size (completedTasks o') = 1
  | (inl _, _) => False
  end.
Proof. vm_compute. repeat split. Qed.
End SampleDelegations.

(** ** The statistical analysis tool *)

Section ScenarioStatistics.
Import Binary64.
Context `{Engine}.

(** C9 (as amended).  On [data = [1, 2, 3, 4, 5]] and [operations = ['mean',
    'median', 'std']] the tool succeeds with [mean = 3], [median = 3],
    [variance = 2] and [std = Math.sqrt(2)], on every engine.  That [std] is
    the binary64 number [6369051672525773 * 2^-52] (1.4142135623730951):
    the one nearest to the square root of 2, less than half a unit in the
    last place above it.  Its square is not 2. *)
Theorem statistical_analysis_scenario :
  statisticalAnalysis (N := float) scenario =
    {| success := true;
       data := Some (JObject [("mean", JNumber 3%float); ("median", JNumber 3%float);
                              ("variance", JNumber 2%float);
                              ("std", JNumber (PrimFloat.sqrt 2%float))]);
       error := None;
       metadata := Some [("dataSize", JNumber 5%float);
                         ("operationsPerformed",
                          JArray [JString "mean"; JString "median"; JString "std"])] |}
  /\ PrimFloat.sqrt 2%float = 0x1.6a09e667f3bcdp+0%float
  /\ Prim2SF (PrimFloat.sqrt 2%float) = S754_finite false 6369051672525773 (-52)
  /\ (2 * 2 ^ 104 < 6369051672525773 * 6369051672525773)%Z
  /\ ((2 * 6369051672525773 - 1) * (2 * 6369051672525773 - 1) < 8 * 2 ^ 104)%Z.
Proof.
  split; [vm_compute; reflexivity|].
  split; [vm_compute; reflexivity|].
  split; [vm_compute; reflexivity|].
  split; reflexivity.
Qed.
End ScenarioStatistics.

Section ScenarioRounding.
Import Binary64 SampleEngines.
#[local] Existing Instance roomy.

(** C9, counterexample.  The [std] the tool returns for the scenario,
    multiplied by itself, is 2.0000000000000004, the binary64 number next
    above 2: "std squared equals 2" does not hold of the result. *)
Lemma std_squared_is_not_two :
  match data (statisticalAnalysis (N := float) scenario) with
  | Some results =>
      match prop "std" results with
      | JNumber std =>
          PrimFloat.mul std std = 0x1.0000000000001p+1%float
          /\ PrimFloat.eqb (PrimFloat.mul std std) 2%float = false
      | _ => False
      end
  | None => False
  end.
Proof. vm_compute. split; reflexivity. Qed.
End ScenarioRounding.

(* ================================================================= *)
(** * Further properties of the engine *)

(** ** Insertion-ordered maps *)

Section JsMapFacts.
Context {V : Type}.

Lemma map_get_set_eq k (v : V) (m : JsMap V) : map_get k (map_set k v m) = Some v.
Proof.
  induction m as [|[k' v'] rest IH]; cbn.
  - now rewrite String.eqb_refl.
  - destruct (String.eqb k k') eqn:E; cbn; rewrite E; [reflexivity | exact IH].
Qed.

Lemma map_get_set_ne k k' (v : V) (m : JsMap V) :
  k <> k' -> map_get k' (map_set k v m) = map_get k' m.
Proof.
  intros Hne. induction m as [|[k0 v0] rest IH]; cbn.
  - destruct (String.eqb k' k) eqn:E; [|reflexivity].
    apply String.eqb_eq in E. congruence.
  - destruct (String.eqb k k0) eqn:E; cbn.
    + apply String.eqb_eq in E. subst k0.
      destruct (String.eqb k' k) eqn:E'; [|reflexivity].
      apply String.eqb_eq in E'. congruence.
    + now rewrite IH.
Qed.

Lemma map_get_keys k (m : JsMap V) : map_get k m <> None <-> In k (map fst m).
Proof.
  induction m as [|[k' v'] rest IH]; cbn.
  - split; [congruence | intros []].
  - destruct (String.eqb k k') eqn:E.
    + apply String.eqb_eq in E. subst. split; [now left | discriminate].
    + rewrite IH. split; [now right | intros [-> | Hin]; [|exact Hin]].
      now rewrite String.eqb_refl in E.
Qed.

(** [set] keeps the keys in place and puts a new key last. *)
Lemma map_set_keys k (v : V) (m : JsMap V) :
  map fst (map_set k v m)
  = if existsb (String.eqb k) (map fst m) then map fst m else map fst m ++ [k].
Proof.
  induction m as [|[k' v'] rest IH]; cbn; [reflexivity|].
  destruct (String.eqb k k') eqn:E; cbn; [reflexivity|].
  rewrite IH. now destruct (existsb (String.eqb k) (map fst rest)).
Qed.

Lemma map_set_NoDup k (v : V) (m : JsMap V) :
  NoDup (map fst m) -> NoDup (map fst (map_set k v m)).
Proof.
  intros Hnd. rewrite map_set_keys.
  destruct (existsb (String.eqb k) (map fst m)) eqn:E; [exact Hnd|].
  apply NoDup_app. split; [exact Hnd|]. split.
  - intros x Hx Hk. apply list_elem_of_In in Hx. apply list_elem_of_In in Hk.
    destruct Hk as [<- | []].
    assert (existsb (String.eqb k) (map fst m) = true); [|congruence].
    apply existsb_exists. exists k. split; [exact Hx | apply String.eqb_refl].
  - apply NoDup_singleton.
Qed.

Lemma setAll_cons kv kvs (m : JsMap V) :
  setAll (kv :: kvs) m = setAll kvs (map_set (fst kv) (snd kv) m).
Proof. reflexivity. Qed.

Lemma setAll_app pre post (m : JsMap V) :
  setAll (pre ++ post) m = setAll post (setAll pre m).
Proof. unfold setAll. apply fold_left_app. Qed.

Lemma setAll_NoDup kvs : forall m : JsMap V,
  NoDup (map fst m) -> NoDup (map fst (setAll kvs m)).
Proof.
  induction kvs as [|kv rest IH]; intros m Hnd; [exact Hnd|].
  rewrite setAll_cons. apply IH, map_set_NoDup, Hnd.
Qed.

Lemma setAll_other k kvs : forall m : JsMap V,
  Forall (fun kv => fst kv <> k) kvs -> map_get k (setAll kvs m) = map_get k m.
Proof.
  induction kvs as [|kv rest IH]; intros m Hall; [reflexivity|].
  inversion Hall as [|? ? Hk Hrest]; subst.
  rewrite setAll_cons, (IH _ Hrest). now apply map_get_set_ne.
Qed.

(** A lookup finds what the last [set] under that key stored. *)
Lemma setAll_last_wins pre k v post (m : JsMap V) :
  Forall (fun kv => fst kv <> k) post ->
  map_get k (setAll (pre ++ (k, v) :: post) m) = Some v.
Proof.
  intros Hpost. rewrite setAll_app, setAll_cons, (setAll_other _ _ _ Hpost).
  apply map_get_set_eq.
Qed.

Lemma setAll_keys k kvs : forall m : JsMap V,
  In k (map fst (setAll kvs m)) <-> In k (map fst m) \/ In k (map fst kvs).
Proof.
  induction kvs as [|[k' v] rest IH]; intros m.
  - cbn. tauto.
  - rewrite setAll_cons, IH, map_set_keys. cbn.
    destruct (existsb (String.eqb k') (map fst m)) eqn:E.
    + apply existsb_exists in E as (x & Hx & Ex). apply String.eqb_eq in Ex. subst x.
      split; [tauto|]. intros [?|[<-|?]]; tauto.
    + rewrite in_app_iff. cbn. tauto.
Qed.
End JsMapFacts.

(** ** The tool registry *)

Section RegistryFacts.
Context `{Platform}.

Lemma tools_registerTools ts : forall a,
  tools (registerTools ts a)
  = setAll (map (fun t => (name (definition t), t)) ts) (tools a).
Proof.
  unfold registerTools.
  induction ts as [|t rest IH]; intros a; [reflexivity|].
  cbn [fold_left map]. rewrite IH, setAll_cons. reflexivity.
Qed.

(** X1.  After [registerTool(t)], a call that names [t.definition.name] runs
    the body of [t] on the call's arguments: what the body returns is the
    result, and what it throws comes back as a failure.  The tools
    registered under other names are found as before. *)
Theorem registerTool_then_execute (t : Tool) (s : Sys) (call : ToolCall) :
  toolName call = name (definition t) ->
  executeToolCall call (with_self (registerTool t) s)
  = (let (outcome, w) := execute t (arguments call) (world s) in
     (inr match outcome with
          | inr result => result
          | inl thrown =>
              {| success := false; data := None;
                 error := Some (errorMessage "Unknown error" thrown);
                 metadata := None |}
          end,
      {| self := registerTool t (self s); world := w; calls := calls s |}))
  /\ (forall n, n <> name (definition t) ->
        map_get n (tools (registerTool t (self s))) = map_get n (tools (self s))).
Proof.
  intros Hname. split.
  - unfold executeToolCall, bind, gets, try_catch, outside, ret. cbn.
    rewrite Hname, map_get_set_eq.
    change (world (with_self (registerTool t) s)) with (world s).
    destruct (execute t (arguments call) (world s)) as [[thrown | result] w];
      reflexivity.
  - intros n Hn. cbn. apply map_get_set_ne. congruence.
Qed.

(** X2.  In the registry of an agent that started without tools, no two
    tools have the same name; a name is found exactly when some registered
    tool carries it; and under a name that was registered more than once
    the tool registered last is found. *)
Theorem registerTools_last_wins (ts : list Tool) (a : Agent) :
  tools a = [] ->
  NoDup (map name (getToolDefinitions (registerTools ts a)))
  /\ (forall n, map_get n (tools (registerTools ts a)) <> None
                <-> exists t, In t ts /\ name (definition t) = n)
  /\ (forall pre t post,
        ts = pre ++ t :: post ->
        Forall (fun t' => name (definition t') <> name (definition t)) post ->
        map_get (name (definition t)) (tools (registerTools ts a)) = Some t).
Proof.
  intros Hempty.
  assert (Hkeyed : forall ts' (m : JsMap Tool),
            Forall (fun e => fst e = name (definition (snd e))) m ->
            Forall (fun e => fst e = name (definition (snd e)))
              (setAll (map (fun t => (name (definition t), t)) ts') m)).
  { induction ts' as [|t rest IH]; intros m Hm; [exact Hm|].
    cbn [map]. rewrite setAll_cons. apply IH. cbn.
    apply map_set_Forall; [|exact Hm].
    intros k' E. apply String.eqb_eq in E. now subst. }
  split; [|split].
  - unfold getToolDefinitions, map_values. rewrite tools_registerTools, Hempty.
    rewrite !map_map.
    erewrite map_ext_Forall.
    + apply (setAll_NoDup (map (fun t => (name (definition t), t)) ts) []). constructor.
    + eapply Forall_impl; [apply (Hkeyed ts []); constructor|].
      intros e He. cbn in *. now rewrite He.
  - intros n. rewrite map_get_keys, tools_registerTools, Hempty, setAll_keys.
    rewrite map_map. cbn. rewrite in_map_iff. split.
    + intros [[] | (t & <- & Hin)]. now exists t.
    + intros (t & Hin & <-). right. now exists t.
  - intros pre t post -> Hpost.
    rewrite tools_registerTools, map_app. cbn [map].
    apply setAll_last_wins. apply Forall_map. exact Hpost.
Qed.
End RegistryFacts.

(** ** The model call *)

Section CallFacts.
Context `{Platform}.

Lemma orString_default a b : b <> "" -> orString a b <> "".
Proof.
  intros Hb. destruct a as [x|]; cbn; [|exact Hb].
  destruct (String.eqb x "") eqn:E; [exact Hb|].
  intros ->. discriminate.
Qed.

(** X3.  The request [callLLM] builds: no message goes out with role
    [tool] (such messages are sent as [user]), the texts and their order are
    those of the conversation, the model name is never empty, the tool
    schemas are left out exactly when the registry is empty, and otherwise
    there is one schema per registered tool, in registry order, whose
    [required] names are among its parameters. *)
Theorem buildRequest_on_the_wire (a : Agent) (messages : list LLMMessage)
    (options : option LLMOptions) :
  Forall (fun m => msg_role m <> tool) (req_messages (buildRequest a messages options))
  /\ map msg_content (req_messages (buildRequest a messages options))
     = map msg_content messages
  /\ req_model (buildRequest a messages options) <> ""
  /\ (req_tools (buildRequest a messages options) = None <-> tools a = [])
  /\ (forall schemas,
        req_tools (buildRequest a messages options) = Some schemas ->
        map rt_name schemas = map name (getToolDefinitions a)
        /\ Forall (fun r => incl (rt_required r) (map fst (rt_properties r))) schemas).
Proof.
  unfold buildRequest. cbn [req_messages req_model req_tools].
  split; [|split; [|split; [|split]]].
  - apply Forall_map. apply Forall_forall. intros m _. cbn.
    destruct (msg_role m); discriminate.
  - rewrite map_map. reflexivity.
  - repeat apply orString_default. discriminate.
  - unfold getToolDefinitions, map_values. rewrite !length_map.
    destruct (tools a); cbn; split; congruence.
  - intros schemas.
    destruct (negb (Nat.eqb (List.length (getToolDefinitions a)) 0)); [|discriminate].
    intros [= <-]. split.
    + rewrite map_map. reflexivity.
    + apply Forall_map. apply Forall_forall. intros d _. cbn.
      intros x Hx. apply in_map_iff in Hx as (e & <- & He).
      apply filter_In in He as (He & _). apply in_map_iff. now exists e.
Qed.

(** X4.  An error of the provider registry never leaves [callLLM].  When
    the provider path fails, the default path is taken from the world the
    failure left; and whatever [callLLM] throws was thrown on the default
    path: by [ZAI.create], by the SDK's completion call, or by reading the
    first choice of a response that has none. *)
Theorem callLLM_swallows_provider_errors (messages : list LLMMessage)
    (options : option LLMOptions) (s : Sys) :
  (forall e s1,
      isOpenai (providerType (self s)) = false ->
      callProvider (buildRequest (self s) messages options) (onRecord messages s)
        = (inl e, s1) ->
      callLLM messages options s
        = callDefault (buildRequest (self s) messages options) s1)
  /\ (forall e s',
        callLLM messages options s = (inl e, s') ->
        exists w,
          (zai (self s) = false /\ exists w', ZAI_create w = (inl e, w'))
          \/ (exists w',
                zai_chat_completions_create
                  (buildRequest (self s) messages options) w = (inl e, w'))
          \/ (exists response w',
                zai_chat_completions_create
                  (buildRequest (self s) messages options) w = (inr response, w')
                /\ zai_choices response = []
                /\ firstOf (zai_choices response) = inl e)).
Proof.
  assert (Hdefault : forall request s1 e s',
            callDefault request s1 = (inl e, s') ->
            exists w,
              (zai (self s1) = false /\ exists w', ZAI_create w = (inl e, w'))
              \/ (exists w', zai_chat_completions_create request w = (inl e, w'))
              \/ (exists response w',
                    zai_chat_completions_create request w = (inr response, w')
                    /\ zai_choices response = []
                    /\ firstOf (zai_choices response) = inl e)).
  { intros request s1 e s'. unfold callDefault, bind, gets, outside, modify, lift, ret.
    destruct (zai (self s1)) eqn:Ez; cbn.
    - destruct (zai_chat_completions_create request (world s1))
        as [[e1 | response] w1] eqn:E1; cbn.
      + intros [= <- <-]. exists (world s1). right. left. eauto.
      + destruct (zai_choices response) as [|c rest] eqn:Ec; cbn; [|discriminate].
        intros [= <- <-]. exists (world s1). right. right.
        exists response, w1. rewrite Ec. auto.
    - destruct (ZAI_create (world s1)) as [[e0 | []] w0] eqn:E0; cbn.
      + intros [= <- <-]. exists (world s1). left. eauto.
      + destruct (zai_chat_completions_create request w0)
          as [[e1 | response] w1] eqn:E1; cbn.
        * intros [= <- <-]. exists w0. right. left. eauto.
        * destruct (zai_choices response) as [|c rest] eqn:Ec; cbn; [|discriminate].
          intros [= <- <-]. exists w0. right. right.
          exists response, w1. rewrite Ec. auto. }
  assert (Hzai : forall request s0 r s1,
            callProvider request s0 = (r, s1) -> zai (self s1) = zai (self s0)).
  { intros request s0 r s1 E.
    revert E. unfold callProvider, bind, outside, lift, ret.
    destruct (providerFactory_createChatCompletion request (world s0)) as [[e | resp] w];
      cbn; [intros [= <- <-]; reflexivity|].
    destruct (firstOf (choices resp)); intros [= <- <-]; reflexivity. }
  split.
  - intros e s1 Hp Hfail.
    unfold callLLM, requestCompletion, record_call.
    unfold bind at 1. unfold modify at 1. fold (onRecord messages s).
    unfold bind at 1. unfold gets at 1. unfold bind at 1. unfold gets at 1.
    cbn [self onRecord]. rewrite Hp.
    unfold bind at 1. unfold try_catch. unfold bind at 1. rewrite Hfail.
    reflexivity.
  - intros e s'.
    unfold callLLM, requestCompletion, record_call.
    unfold bind at 1. unfold modify at 1. fold (onRecord messages s).
    unfold bind at 1. unfold gets at 1. unfold bind at 1. unfold gets at 1.
    cbn [self onRecord].
    destruct (isOpenai (providerType (self s))).
    + unfold bind at 1. unfold ret at 1. intros E.
      apply (Hdefault _ _ _ _ E).
    + unfold bind at 1. unfold try_catch. unfold bind at 1.
      destruct (callProvider (buildRequest (self s) messages options)
                  (onRecord messages s)) as [[e1 | r] s1] eqn:Ep.
      * unfold ret at 1. intros E.
        destruct (Hdefault _ _ _ _ E) as (w & [(Hz & Hc) | Hrest]); exists w.
        -- left. split; [|exact Hc]. now rewrite <- Hz, (Hzai _ _ _ _ Ep).
        -- right. exact Hrest.
      * unfold ret. discriminate.
Qed.
End CallFacts.

(** ** Parsing the tool calls *)

Section ParseFacts.
Context `{Platform}.

(** X5.  [parseToolCalls] returns exactly when every argument string is
    valid JSON.  What it returns has the ids and the tool names of the
    serialized calls, in the same order, with the parsed arguments; and
    when it throws, it throws what [JSON.parse] threw on the first argument
    string that is not valid. *)
Theorem parseToolCalls_in_order (tcs : list WireToolCall) :
  ((exists cs, parseToolCalls tcs = inr cs) <-> Forall parses tcs)
  /\ (forall cs,
        parseToolCalls tcs = inr cs ->
        map tc_id cs = map wire_id tcs
        /\ map toolName cs = map (fun tc => fn_name (wire_function tc)) tcs
        /\ map (fun c => inr (arguments c)) cs
           = map (fun tc => JSON_parse (fn_arguments (wire_function tc))) tcs)
  /\ (forall pre tc post e,
        tcs = pre ++ tc :: post ->
        Forall parses pre ->
        JSON_parse (fn_arguments (wire_function tc)) = inl e ->
        parseToolCalls tcs = inl e).
Proof.
  split; [|split].
  - split.
    + revert tcs. induction tcs as [|tc rest IH]; intros (cs & E); [constructor|].
      cbn [parseToolCalls] in E. unfold parseToolCall in E.
      destruct (JSON_parse (fn_arguments (wire_function tc))) as [e | v] eqn:Ev;
        [discriminate|].
      destruct (parseToolCalls rest) as [e | cs']; [discriminate|].
      constructor; [now exists v | apply IH; eauto].
    + apply parseToolCalls_parses.
  - induction tcs as [|tc rest IH]; intros cs E; cbn [parseToolCalls] in E.
    + injection E as <-. repeat split.
    + unfold parseToolCall in E.
      destruct (JSON_parse (fn_arguments (wire_function tc))) as [e | v] eqn:Ev;
        [discriminate|].
      destruct (parseToolCalls rest) as [e | cs']; [discriminate|].
      injection E as <-. destruct (IH cs' eq_refl) as (Hi & Hn & Ha).
      cbn. rewrite Hi, Hn, Ha, Ev. repeat split.
  - intros pre tc post e -> Hpre He.
    induction Hpre as [|c pre (v & Hv) _ IH]; cbn [app parseToolCalls].
    + unfold parseToolCall. now rewrite He.
    + unfold parseToolCall at 1. now rewrite Hv, IH.
Qed.
End ParseFacts.

(** ** The loop, turn by turn *)

Section RunFacts.
Context `{Platform}.

Lemma outsideOnly_refl s : outsideOnly s s.
Proof. now split. Qed.

Lemma outsideOnly_trans a b c : outsideOnly a b -> outsideOnly b c -> outsideOnly a c.
Proof. unfold outsideOnly. intros (? & ?) (? & ?). split; congruence. Qed.

Lemma outsideOnly_outside {A} (f : Env -> (Thrown + A) * Env) :
  respects outsideOnly (outside f).
Proof. intros s. unfold outside. destruct (f (world s)). now split. Qed.

Ltac outside_step :=
  first
    [ apply (respects_ret outsideOnly outsideOnly_refl)
    | apply (respects_lift outsideOnly outsideOnly_refl)
    | apply (respects_gets outsideOnly outsideOnly_refl)
    | apply outsideOnly_outside
    | apply (respects_bind outsideOnly outsideOnly_trans); [|intros ?]
    | apply (respects_try_catch outsideOnly outsideOnly_trans); [|intros ?] ].

Lemma outsideOnly_executeToolCall toolCall :
  respects outsideOnly (executeToolCall toolCall).
Proof.
  unfold executeToolCall. outside_step; [outside_step|].
  destruct a as [t|]; repeat outside_step.
Qed.

(** The [for] loop over the tool calls changes nothing of the agent. *)
Lemma outsideOnly_executeTools response tcs : forall t,
  respects outsideOnly (executeTools response tcs t).
Proof.
  induction tcs as [|tc rest IH]; intros t; cbn [executeTools].
  - outside_step.
  - unfold ask.
    repeat first [apply outsideOnly_executeToolCall | apply IH | outside_step].
Qed.

Lemma clientOnly_refl s : clientOnly s s.
Proof. split; [|reflexivity]. now destruct (self s). Qed.

Lemma clientOnly_trans a b c : clientOnly a b -> clientOnly b c -> clientOnly a c.
Proof.
  unfold clientOnly. intros (Hab & ?) (Hbc & ?). split; [|congruence].
  rewrite Hbc, Hab. reflexivity.
Qed.

Lemma outsideOnly_clientOnly {A} (c : Exec A) :
  respects outsideOnly c -> respects clientOnly c.
Proof.
  intros Hc s. destruct (Hc s) as (Hs & Hk). split; [|exact Hk].
  rewrite Hs. now destruct (self s).
Qed.

Ltac client_step :=
  first
    [ apply (respects_ret clientOnly clientOnly_refl)
    | apply (respects_lift clientOnly clientOnly_refl)
    | apply (respects_gets clientOnly clientOnly_refl)
    | apply outsideOnly_clientOnly, outsideOnly_outside
    | apply (respects_bind clientOnly clientOnly_trans); [|intros ?]
    | apply (respects_try_catch clientOnly clientOnly_trans); [|intros ?] ].

Lemma clientOnly_requestCompletion messages options :
  respects clientOnly (requestCompletion messages options).
Proof.
  unfold requestCompletion. do 2 (client_step; [client_step|]).
  client_step.
  - destruct a0; unfold callProvider; repeat client_step.
  - destruct a1; [client_step|].
    unfold callDefault. client_step; [client_step|].
    client_step; [|repeat client_step].
    destruct a1; repeat client_step.
    intros s. split; reflexivity.
Qed.

(** What one [callLLM] does to the agent and to the record. *)
Lemma callLLM_agent messages options s :
  self (snd (callLLM messages options s))
  = with_zai (zai (self (snd (callLLM messages options s)))) (self s)
  /\ calls (snd (callLLM messages options s)) = calls s ++ [messages].
Proof.
  change (callLLM messages options s)
    with (requestCompletion messages options (onRecord messages s)).
  apply (clientOnly_requestCompletion messages options (onRecord messages s)).
Qed.
(** Calls that [parseToolCalls] accepted have argument strings that parse. *)
Lemma parsedCalls_parses tcs cs : parseToolCalls tcs = inr cs -> Forall parses tcs.
Proof.
  revert cs. induction tcs as [|tc rest IH]; intros cs E; [constructor|].
  cbn [parseToolCalls] in E. unfold parseToolCall in E.
  destruct (JSON_parse (fn_arguments (wire_function tc))) as [e | v] eqn:Ev;
    [discriminate|].
  destruct (parseToolCalls rest) as [e | cs']; [discriminate|].
  constructor; [now exists v | eapply IH; eauto].
Qed.

(** One turn of the loop, spelled out. *)
Lemma loop_turn n all msgs s :
  loop (S n) all msgs s
  = match callLLM msgs None (thinkingIn s) with
    | (inl e, s1) => (inl e, s1)
    | (inr response, s1) =>
        let (i, w1) := uuidv4 (world s1) in
        let (now, w2) := Date_now w1 in
        let s2 := {| self := self s1; world := w2; calls := calls s1 |} in
        match match resp_toolCalls response with
              | Some tcs => match parseToolCalls tcs with
                            | inl e => inl e
                            | inr cs => inr (Some cs)
                            end
              | None => inr None
              end with
        | inl e => (inl e, s2)
        | inr parsed =>
            let all' :=
              all ++ [{| am_id := i; am_role := assistant;
                         am_content := resp_content response; am_timestamp := now;
                         am_toolCalls := parsed; am_toolResult := None |}] in
            if isStop (finishReason response) || noToolCalls response then
              (inr {| lr_messages := all';
                      lr_result := JString (resp_content response) |},
               with_self (with_state (with_status idle)) s2)
            else
              match executeTools response (nullish (resp_toolCalls response) [])
                      {| allMessages := all'; toolResults := []; llmMessages := msgs |}
                      (with_self (with_state (with_status executing)) s2) with
              | (inl e, s3) => (inl e, s3)
              | (inr t, s3) => loop n (allMessages t) (llmMessages t ++ toolResults t) s3
              end
        end
    end.
Proof.
  cbn [loop].
  unfold bind at 1. unfold set_status at 1. unfold modify at 1. fold (thinkingIn s).
  unfold bind at 1.
  destruct (callLLM msgs None (thinkingIn s)) as [[e | response] s1]; [reflexivity|].
  unfold bind at 1. unfold ask at 1. unfold outside at 1.
  destruct (uuidv4 (world s1)) as [i w1].
  unfold bind at 1. unfold ask at 1. unfold outside at 1. cbn [world self calls].
  destruct (Date_now w1) as [now w2].
  unfold bind at 1.
  destruct (resp_toolCalls response) as [tcs|].
  - unfold bind at 1. unfold lift.
    destruct (parseToolCalls tcs) as [e | cs]; [reflexivity|].
    unfold ret at 1.
    destruct (isStop (finishReason response) || noToolCalls response).
    + reflexivity.
    + unfold bind at 1. unfold set_status at 1. unfold modify at 1.
      unfold bind at 1. reflexivity.
  - unfold ret at 1.
    destruct (isStop (finishReason response) || noToolCalls response).
    + reflexivity.
    + unfold bind at 1. unfold set_status at 1. unfold modify at 1.
      unfold bind at 1. reflexivity.
Qed.

(** What the [for] loop over the tool calls leaves in the three lists. *)
Lemma executeTools_lists response tcs : forall t s t' s',
  executeTools response tcs t s = (inr t', s') ->
  llmMessages t' = llmMessages t ++ repeat (echoOf response) (List.length tcs)
  /\ exists results added,
      toolResults t' = toolResults t ++ results
      /\ allMessages t' = allMessages t ++ added
      /\ List.length added = List.length tcs
      /\ Forall (fun m => am_role m = tool) added
      /\ map msg_toolCallId results = map (fun tc => Some (wire_id tc)) tcs
      /\ Forall (fun m => msg_role m = tool) results
      /\ map msg_content results = map am_content added
      /\ Forall (fun m => exists r, am_toolResult m = Some r
                          /\ JSON_stringify_result r = inr (am_content m)) added.
Proof.
  induction tcs as [|tc rest IH]; intros t s t' s'; cbn [executeTools].
  - intros [= <- <-]. split; [now rewrite app_nil_r|].
    exists [], []. rewrite !app_nil_r. repeat split; constructor.
  - unfold bind at 1. unfold lift at 1.
    destruct (JSON_parse (fn_arguments (wire_function tc))) as [e | v]; [discriminate|].
    unfold bind at 1.
    destruct (total_executeToolCall
                {| tc_id := wire_id tc; toolName := fn_name (wire_function tc);
                   arguments := v |} s) as (r & s1 & ->).
    unfold bind at 1. unfold ask at 1. unfold outside at 1.
    destruct (uuidv4 (world s1)) as [i w1].
    unfold bind at 1. unfold lift at 1.
    destruct (JSON_stringify_result r) as [e | text] eqn:Etext; [discriminate|].
    unfold bind at 1. unfold ask at 1. unfold outside at 1. cbn [world self calls].
    destruct (Date_now w1) as [now w2].
    intros E. apply IH in E as (Hl & results & added & Hr & Ha & Hn & Hroles & Hids
                                & Hrr & Hc & Hres).
    cbn [llmMessages toolResults allMessages] in *.
    split.
    { rewrite Hl, <- app_assoc. reflexivity. }
    eexists (_ :: results), (_ :: added).
    split; [rewrite Hr, <- app_assoc; reflexivity|].
    split; [rewrite Ha, <- app_assoc; reflexivity|].
    cbn. rewrite Hn, Hids, Hc.
    repeat split; try (constructor; [|assumption]); cbn; eauto.
Qed.

(** When the [for] loop throws although the argument strings parse, what it
    throws was thrown by [JSON.stringify] on the result of a tool. *)
Lemma executeTools_throws response tcs :
  Forall parses tcs ->
  forall t s e s',
    executeTools response tcs t s = (inl e, s') -> unserialised s e.
Proof.
  induction 1 as [|tc rest (v & Hv) _ IH]; intros t s e s'; cbn [executeTools].
  - discriminate.
  - unfold bind at 1. unfold lift at 1. rewrite Hv.
    unfold bind at 1.
    destruct (total_executeToolCall
                {| tc_id := wire_id tc; toolName := fn_name (wire_function tc);
                   arguments := v |} s) as (r & s1 & E).
    destruct (outsideOnly_executeToolCall
                {| tc_id := wire_id tc; toolName := fn_name (wire_function tc);
                   arguments := v |} s) as [Hself _].
    rewrite E in Hself |- *. cbn [snd] in Hself.
    unfold bind at 1. unfold ask at 1. unfold outside at 1.
    destruct (uuidv4 (world s1)) as [i w1].
    unfold bind at 1. unfold lift at 1.
    destruct (JSON_stringify_result r) as [e' | text] eqn:Etext.
    + intros [= <- _]. eexists. exists s, r, s1.
      split; [reflexivity|]. split; [exact E | exact Etext].
    + unfold bind at 1. unfold ask at 1. unfold outside at 1. cbn [world self calls].
      destruct (Date_now w1) as [now w2]. intros Erest.
      destruct (IH _ _ _ _ Erest) as (toolCall & s0 & r0 & s2 & Htools & Hcall & Hthrow).
      exists toolCall, s0, r0, s2. cbn [self] in Htools.
      split; [congruence | now split].
Qed.

Lemma statusOnly_intro z st s s' :
  self s' = with_zai z (with_state (with_status st) (self s)) -> statusOnly s s'.
Proof. unfold statusOnly. intros ->. reflexivity. Qed.

Lemma statusOnly_trans a b c : statusOnly a b -> statusOnly b c -> statusOnly a c.
Proof.
  unfold statusOnly. intros E1 E2.
  apply (statusOnly_intro (zai (self c)) (status (state (self c)))).
  rewrite E2, E1. reflexivity.
Qed.

Lemma extending_shorter prev more later :
  extending (prev ++ more) later -> extending prev later.
Proof.
  destruct later as [|m rest]; [trivial|].
  intros [(more' & ->) Hrest]. split; [|exact Hrest].
  exists (more ++ more'). now rewrite app_assoc.
Qed.

Lemma no_assistant_among_tools added :
  Forall (fun m => am_role m = tool) added -> List.filter isAssistant added = [].
Proof.
  induction 1 as [|m rest Hm _ IH]; [reflexivity|].
  cbn [List.filter]. unfold isAssistant at 1. now rewrite Hm.
Qed.

Lemma statusOnly_tools s s' : statusOnly s s' -> tools (self s') = tools (self s).
Proof. unfold statusOnly. intros ->. reflexivity. Qed.

Lemma leftAt_later s s' e st : statusOnly s s' -> leftAt s' e st -> leftAt s e st.
Proof.
  intros Hs [Ht | (He & toolCall & s0 & r & s1 & Htools & Hcall & Hthrow)];
    [now left|].
  right. split; [exact He|]. exists toolCall, s0, r, s1.
  split; [|now split]. rewrite Htools. now apply statusOnly_tools.
Qed.

(** The whole run of the loop from any turn on: the model calls it makes,
    what it does to the agent, and the transcript it returns. *)
Lemma loop_run n : forall all msgs s,
  exists new,
    calls (snd (loop n all msgs s)) = calls s ++ new
    /\ List.length new <= n
    /\ (new = [] -> n = 0)
    /\ conversation msgs new
    /\ statusOnly s (snd (loop n all msgs s))
    /\ match fst (loop n all msgs s) with
       | inl e => leftAt s e (status (state (self (snd (loop n all msgs s)))))
       | inr r =>
           status (state (self (snd (loop n all msgs s)))) = idle
           /\ exists added,
               lr_messages r = all ++ added
               /\ Forall (fun m => am_role m = assistant \/ am_role m = tool) added
               /\ List.length (List.filter isAssistant added) = List.length new
       end.
Proof.
  induction n as [|n IH]; intros all msgs s.
  - exists []. cbn. rewrite !app_nil_r.
    split; [reflexivity|]. split; [lia|]. split; [reflexivity|]. split; [exact I|].
    split; [now apply (statusOnly_intro (zai (self s)) idle)|].
    split; [reflexivity|].
    exists []. rewrite app_nil_r. repeat split; constructor.
  - rewrite loop_turn.
    destruct (callLLM_agent msgs None (thinkingIn s)) as [Hself Hcalls].
    cbn [thinkingIn with_self self calls] in Hself, Hcalls.
    destruct (callLLM msgs None (thinkingIn s)) as [[e | response] s1].
    { exists [msgs]. cbn [fst snd] in *.
      split; [exact Hcalls|]. split; [cbn; lia|]. split; [discriminate|].
      split; [now split|].
      split; [eapply statusOnly_intro, Hself|].
      left. rewrite Hself; reflexivity. }
    cbn [fst snd] in Hself, Hcalls.
    destruct (uuidv4 (world s1)) as [i w1].
    destruct (Date_now w1) as [now w2]. cbv zeta.
    assert (Hthrown : forall e : Thrown,
      let s2 := {| self := self s1; world := w2; calls := calls s1 |} in
      exists new,
        calls s2 = calls s ++ new /\ List.length new <= S n
        /\ (new = [] -> S n = 0) /\ conversation msgs new
        /\ statusOnly s s2
        /\ leftAt s e (status (state (self s2)))).
    { intros e. exists [msgs]. cbn [self calls].
      split; [exact Hcalls|]. split; [cbn; lia|]. split; [discriminate|].
      split; [now split|].
      split; [eapply statusOnly_intro, Hself|].
      left. rewrite Hself; reflexivity. }
    destruct (match resp_toolCalls response with
              | Some tcs => match parseToolCalls tcs with
                            | inl e => inl e
                            | inr cs => inr (Some cs)
                            end
              | None => inr None
              end) as [e | parsed] eqn:Hparsed.
    { cbn [fst snd]. exact (Hthrown e). }
    destruct (isStop (finishReason response) || noToolCalls response).
    { exists [msgs]. cbn [fst snd with_self self calls].
      split; [exact Hcalls|]. split; [cbn; lia|]. split; [discriminate|].
      split; [now split|].
      split.
      { apply (statusOnly_intro (zai (self s1)) idle). rewrite Hself. reflexivity. }
      split; [reflexivity|].
      eexists [_]. split; [reflexivity|].
      split; [constructor; [now left | constructor] | reflexivity]. }
    assert (Hparse : Forall parses (nullish (resp_toolCalls response) [])).
    { destruct (resp_toolCalls response) as [tcs|]; [|constructor].
      destruct (parseToolCalls tcs) as [e | cs] eqn:Ecs; [discriminate|].
      cbn [nullish]. eapply parsedCalls_parses, Ecs. }
    match goal with |- context [executeTools ?r ?tcs ?t ?s0] =>
      destruct (outsideOnly_executeTools r tcs t s0) as [Hs3 Hc3];
      pose proof (executeTools_throws r tcs Hparse t s0) as Hthrows;
      pose proof (executeTools_lists r tcs t s0) as Hlists;
      destruct (executeTools r tcs t s0) as [[e | t'] s3]
    end.
    { cbn [fst snd with_self self calls] in Hs3, Hc3 |- *.
      exists [msgs].
      split; [now rewrite Hc3|]. split; [cbn; lia|]. split; [discriminate|].
      split; [now split|].
      assert (Hstat : statusOnly s s3).
      { apply (statusOnly_intro (zai (self s1)) executing).
        rewrite Hs3, Hself. reflexivity. }
      split; [exact Hstat|].
      right. split; [rewrite Hs3; reflexivity|].
      destruct (Hthrows e s3 eq_refl) as (toolCall & s0 & r & s4 & Htools & Hcall & Hthrow).
      exists toolCall, s0, r, s4. split; [|now split].
      rewrite Htools. cbn [with_self self]. rewrite Hself. reflexivity. }
    destruct (Hlists t' s3 eq_refl)
      as (Hl & results & added & Hr & Ha & _ & Hroles & _).
    cbn [fst snd with_self self calls allMessages toolResults llmMessages] in Hs3, Hc3, Hl, Hr, Ha.
    assert (Hstat3 : statusOnly s s3).
    { apply (statusOnly_intro (zai (self s1)) executing).
      rewrite Hs3, Hself. reflexivity. }
    destruct (IH (allMessages t') (llmMessages t' ++ toolResults t') s3)
      as (new & Hnew & Hlen & _ & Hconv & Hstat & Hout).
    exists (msgs :: new).
    split; [rewrite Hnew, Hc3, Hcalls, <- app_assoc; reflexivity|].
    split; [cbn; lia|].
    split; [discriminate|].
    split.
    { split; [reflexivity|]. destruct new as [|m rest]; [exact I|].
      destruct Hconv as [-> Hrest]. split; [|exact Hrest].
      rewrite Hl, <- app_assoc. eauto. }
    split.
    { eapply statusOnly_trans; [exact Hstat3 | exact Hstat]. }
    destruct (fst (loop n (allMessages t') (llmMessages t' ++ toolResults t') s3))
      as [e | r].
    { eapply leftAt_later; [exact Hstat3 | exact Hout]. }
    destruct Hout as (Hidle & added' & Hmsgs & Hall & Hcount).
    split; [exact Hidle|].
    eexists (_ :: added ++ added').
    split; [rewrite Hmsgs, Ha, <- !app_assoc; reflexivity|].
    split.
    { constructor; [now left|]. apply Forall_app. split; [|exact Hall].
      eapply Forall_impl; [exact Hroles|]. cbn. intros m Hm. now right. }
    cbn [List.filter isAssistant am_role List.length].
    rewrite List.filter_app, (no_assistant_among_tools added Hroles). cbn [app].
    now rewrite Hcount.
Qed.
(** The agent after a run is the one before it, but for the status and the
    SDK client. *)
Lemma runAgentLoop_frame initialMessages maxIterations s :
  statusOnly s (snd (runAgentLoop initialMessages maxIterations s))
  /\ calls s `prefix_of` calls (snd (runAgentLoop initialMessages maxIterations s)).
Proof.
  unfold runAgentLoop.
  destruct (loop_run maxIterations [] initialMessages s) as (new & Hc & _ & _ & _ & Hs & _).
  split; [exact Hs | now exists new].
Qed.
End RunFacts.

(** ** The agent loop: what a run does *)

Section LoopProperties.
Context `{Platform}.

(** X6.  [runAgentLoop] makes at most [maxIterations] calls to the model,
    whatever the model answers and whether the run returns or throws. *)
Theorem runAgentLoop_bounded_calls (initialMessages : list LLMMessage)
    (maxIterations : nat) (s : Sys) :
  exists new,
    calls (snd (runAgentLoop initialMessages maxIterations s)) = calls s ++ new
    /\ List.length new <= maxIterations.
Proof.
  unfold runAgentLoop.
  destruct (loop_run maxIterations [] initialMessages s) as (new & Hc & Hl & _).
  exists new. split; assumption.
Qed.

(** X7.  The conversation sent to the model only grows during a run: the
    first call gets [initialMessages] as they are, and every later call gets
    a list that starts with the whole list of the call before it. *)
Theorem runAgentLoop_conversation_grows (initialMessages : list LLMMessage)
    (maxIterations : nat) (s : Sys) :
  exists new,
    calls (snd (runAgentLoop initialMessages maxIterations s)) = calls s ++ new
    /\ conversation initialMessages new.
Proof.
  unfold runAgentLoop.
  destruct (loop_run maxIterations [] initialMessages s)
    as (new & Hc & _ & _ & Hconv & _).
  exists new. split; assumption.
Qed.


(** X9.  The transcript a run returns holds assistant and tool messages
    only, and exactly one assistant message for each call to the model that
    the run made. *)
Theorem runAgentLoop_transcript (initialMessages : list LLMMessage)
    (maxIterations : nat) (s : Sys) (r : LoopResult) (s' : Sys) :
  runAgentLoop initialMessages maxIterations s = (inr r, s') ->
  Forall (fun m => am_role m = assistant \/ am_role m = tool) (lr_messages r)
  /\ List.length (calls s')
     = List.length (calls s) + List.length (List.filter isAssistant (lr_messages r)).
Proof.
  unfold runAgentLoop. intros E.
  destruct (loop_run maxIterations [] initialMessages s)
    as (new & Hc & _ & _ & _ & _ & Hout).
  rewrite E in Hc, Hout. cbn [fst snd] in Hc, Hout.
  destruct Hout as (_ & added & -> & Hroles & Hcount).
  cbn [app]. split; [exact Hroles|].
  rewrite Hc, length_app, Hcount. reflexivity.
Qed.
End LoopProperties.

(** ** The orchestrators: what [execute] leaves behind *)

Section ExecuteProperties.
Context `{Platform}.

(** [execute], spelled out around its call of [runAgentLoop]. *)
Lemma execute_orchestrator_run o task s :
  execute_orchestrator o task s
  = let (startTime, w0) := Date_now (world s) in
    match runAgentLoop (buildMessages o (self s) task) (iterationCap o)
            {| self := with_state (with_currentTask (Some (task_id task)))
                         (with_state (with_status thinking) (self s));
               world := w0; calls := calls s |} with
    | (inr lr, s1) =>
        let (now, w1) := Date_now (world s1) in
        let (endTime, w2) := Date_now w1 in
        (inr {| tr_success := true; output := Some (lr_result lr); tr_error := None;
                artifacts := None; executionTime := Some (endTime - startTime)%Z |},
         {| self := with_state (with_lastActivity (Some now))
                      (with_state (with_status idle) (self s1));
            world := w2; calls := calls s1 |})
    | (inl thrown, s1) =>
        let (endTime, w) := Date_now (world s1) in
        (inr {| tr_success := false; output := None;
                tr_error := Some (errorMessage (unknownErrorText o) thrown);
                artifacts := None; executionTime := Some (endTime - startTime)%Z |},
         {| self := with_state (with_status status_error) (self s1);
            world := w; calls := calls s1 |})
    end.
Proof.
  unfold execute_orchestrator, bind at 1, ask at 1, outside at 1.
  destruct (Date_now (world s)) as [startTime w0].
  unfold try_catch, execute_try.
  unfold bind at 1, set_status at 1, modify at 1.
  unfold bind at 1, modify at 1.
  unfold bind at 1, gets at 1.
  unfold bind at 1. cbn [with_self self world calls].
  change (buildMessages o _ task) with (buildMessages o (self s) task).
  destruct (runAgentLoop _ _ _) as [[thrown | lr] s1].
  - unfold execute_catch, bind, set_status, modify, ask, outside, ret.
    cbn [with_self self world calls].
    destruct (Date_now (world s1)) as [endTime w]. reflexivity.
  - unfold bind, set_status, modify, ask, outside, ret.
    cbn [with_self self world calls].
    destruct (Date_now (world s1)) as [now w1]. cbn [self world calls].
    destruct (Date_now w1) as [endTime w2]. reflexivity.
Qed.


(** X11.  The result of [execute] and the state it leaves the agent in
    agree.  On success the status is [idle], [lastActivity] is set, and the
    result has an output and no error; on failure the status is [error],
    [lastActivity] is as it was, and the result has an error and no output.
    Either way [currentTask] is left at the id of the task, and the
    configuration, the tools and the message history are as before. *)
Theorem execute_result_and_state (o : ConcreteOrchestrator) (task : Task) (s : Sys) :
  exists r s',
    execute_orchestrator o task s = (inr r, s')
    /\ currentTask (state (self s')) = Some (task_id task)
    /\ config (self s') = config (self s)
    /\ tools (self s') = tools (self s)
    /\ messageHistory (self s') = messageHistory (self s)
    /\ if tr_success r
       then status (state (self s')) = idle
            /\ (exists t, lastActivity (state (self s')) = Some t)
            /\ (exists v, output r = Some v) /\ tr_error r = None
       else status (state (self s')) = status_error
            /\ lastActivity (state (self s')) = lastActivity (state (self s))
            /\ output r = None /\ (exists m, tr_error r = Some m).
Proof.
  rewrite execute_orchestrator_run.
  destruct (Date_now (world s)) as [startTime w0].
  match goal with |- context [runAgentLoop ?m ?n ?s0] =>
    destruct (runAgentLoop_frame m n s0) as [Hst _];
    destruct (runAgentLoop m n s0) as [[thrown | lr] s1]
  end; cbn [snd self] in Hst.
  - destruct (Date_now (world s1)) as [endTime w].
    do 2 eexists. split; [reflexivity|]. cbn [self tr_success output tr_error].
    rewrite Hst. cbn. repeat split; eauto.
  - destruct (Date_now (world s1)) as [now w1].
    destruct (Date_now w1) as [endTime w2].
    do 2 eexists. split; [reflexivity|]. cbn [self tr_success output tr_error].
    rewrite Hst. cbn. repeat split; eauto.
Qed.

End ExecuteProperties.

(** ** The orchestrator: registration, delegation, requests, statistics *)

Section OrchestratorProperties.
Context `{Platform}.

(** A delegation to a registered sub-agent, spelled out. *)
Lemma delegation_run agentId taskDescription context o subAgent :
  map_get agentId (subAgents o) = Some subAgent ->
  delegation agentId taskDescription context o
  = let (i, w1) := uuidv4 (outer o) in
    let (c, w2) := Date_now w1 in
    let (u, w3) := Date_now w2 in
    let task := newTask i c u agentId taskDescription context in
    let (outcome, w4) := agent_execute (agent subAgent) task w3 in
    let (now, w5) := Date_now w4 in
    let result := match outcome with inr r => r | inl e => failedResult e end in
    let st := match outcome with
              | inr r => if tr_success r then completed else failed
              | inl _ => failed
              end in
    (inr {| returned := result; created := Some (with_outcome st result now task) |},
     {| subAgents := subAgents o;
        pendingTasks := delete i (insert i task (pendingTasks o));
        completedTasks := insert i result (completedTasks o);
        outer := w5 |}).
Proof.
  intros Hsome. unfold delegation.
  unfold bind at 1. unfold gets. rewrite Hsome.
  unfold bind at 1. unfold askO at 1. unfold outsideO at 1.
  destruct (uuidv4 (outer o)) as [i w1].
  unfold bind at 1. unfold askO at 1. unfold outsideO at 1.
  cbn [outer with_outer]. destruct (Date_now w1) as [c w2].
  unfold bind at 1. unfold askO at 1. unfold outsideO at 1.
  cbn [outer with_outer]. destruct (Date_now w2) as [u w3].
  unfold bind at 1. unfold modify at 1.
  unfold try_catch. unfold bind at 1. unfold outsideO at 1.
  cbn [outer with_outer with_pendingTasks subAgents pendingTasks completedTasks].
  destruct (agent_execute (agent subAgent)
              (newTask i c u agentId taskDescription context) w3)
    as [[thrown | result] w4];
    match goal with |- context [settle ?st ?r ?t ?o0] =>
      destruct (settle_outcome st r t o0) as (now & w & Ed & ->) end;
    cbn [outer with_outer with_pendingTasks] in Ed; rewrite Ed; reflexivity.
Qed.

Lemma delegateTask_state agentId taskDescription context o :
  snd (delegateTask agentId taskDescription context o)
  = snd (delegation agentId taskDescription context o).
Proof.
  unfold delegateTask, bind.
  now destruct (delegation agentId taskDescription context o) as [[e | d] o'].
Qed.

Lemma filter_length_Permutation {A} (f : A -> bool) l l' :
  l ≡ₚ l' -> List.length (List.filter f l) = List.length (List.filter f l').
Proof.
  induction 1 as [|x l l' _ IH|x y l|l l' l'' _ IH1 _ IH2]; cbn.
  - reflexivity.
  - destruct (f x); cbn; now rewrite IH.
  - destruct (f x), (f y); reflexivity.
  - now rewrite IH1.
Qed.

Lemma filter_length_split {A} (f : A -> bool) l :
  List.length (List.filter f l) + List.length (List.filter (fun x => negb (f x)) l)
  = List.length l.
Proof.
  induction l as [|x l IH]; [reflexivity|].
  cbn. destruct (f x); cbn; lia.
Qed.

(** What [getStats] reports after one more result was filed under a fresh
    id. *)
Lemma getStats_insert i result o :
  completedTasks o !! i = None ->
  getStats (with_completedTasks (insert i result) o)
  = let '(sum, queued, done, lost) := getStats o in
    (S sum, queued,
     if tr_success result then S done else done,
     if tr_success result then lost else S lost).
Proof.
  intros Hfresh. unfold getStats.
  cbn [with_completedTasks pendingTasks completedTasks].
  rewrite (map_size_insert_None _ _ _ Hfresh).
  pose proof (map_to_list_insert (completedTasks o) i result Hfresh) as Hp.
  apply (Permutation_map snd) in Hp.
  rewrite (filter_length_Permutation tr_success _ _ Hp).
  rewrite (filter_length_Permutation (fun r => negb (tr_success r)) _ _ Hp).
  cbn. destruct (tr_success result); cbn; repeat f_equal; lia.
Qed.
(** X13.  Registration and delegation compose.  After
    [registerSubAgent(a, caps)] the entry under [a.id] is the one just made
    and every other entry is as before; and [delegateTask(a.id, d, ctx)] hands
    [a.execute] a new task (a fresh id, description [d], priority [medium],
    status [in_progress], assigned to [a.id], no sub-tasks, no result, [ctx]
    as the [context] of its metadata) and returns what [a.execute] returns,
    or a failure that carries the message of the [Error] it throws
    ("Unknown error" when what it throws is not an [Error]). *)
Theorem registerSubAgent_then_delegateTask (a : AgentRef) (caps : list string)
    (o : Orchestrator) (taskDescription : string) (context : JSON) :
  getSubAgent (agent_id a) (registerSubAgent a caps o)
  = Some {| sa_id := agent_id a; sa_name := agent_name a; agent := a;
            capabilities := caps |}
  /\ (forall j, j <> agent_id a ->
        getSubAgent j (registerSubAgent a caps o) = getSubAgent j o)
  /\ let (i, w1) := uuidv4 (outer o) in
     let (c, w2) := Date_now w1 in
     let (u, w3) := Date_now w2 in
     fst (delegateTask (agent_id a) taskDescription context (registerSubAgent a caps o))
     = inr match fst (agent_execute a
                        {| task_id := i; task_description := taskDescription;
                           priority := medium; task_status := in_progress;
                           assignedTo := Some (agent_id a); delegatedTo := None;
                           parentTaskId := None; subTasks := []; task_result := None;
                           createdAt := c; updatedAt := u;
                           task_metadata := Some [("context", context)] |} w3) with
           | inr result => result
           | inl (ErrorObject message) =>
               {| tr_success := false; output := None; tr_error := Some message;
                  artifacts := None; executionTime := None |}
           | inl (ThrownValue _) =>
               {| tr_success := false; output := None;
                  tr_error := Some "Unknown error";
                  artifacts := None; executionTime := None |}
           end.
Proof.
  assert (Hget : getSubAgent (agent_id a) (registerSubAgent a caps o)
                 = Some {| sa_id := agent_id a; sa_name := agent_name a; agent := a;
                           capabilities := caps |}).
  { apply map_get_set_eq. }
  split; [exact Hget|]. split.
  { intros j Hj. apply map_get_set_ne. congruence. }
  unfold delegateTask, bind at 1.
  rewrite (delegation_run _ _ _ _ _ Hget).
  cbn [registerSubAgent outer agent].
  destruct (uuidv4 (outer o)) as [i w1].
  destruct (Date_now w1) as [c w2].
  destruct (Date_now w2) as [u w3].
  change (newTask i c u (agent_id a) taskDescription context)
    with {| task_id := i; task_description := taskDescription;
            priority := medium; task_status := in_progress;
            assignedTo := Some (agent_id a); delegatedTo := None;
            parentTaskId := None; subTasks := []; task_result := None;
            createdAt := c; updatedAt := u;
            task_metadata := Some [("context", context)] |}.
  cbv zeta.
  destruct (agent_execute a _ w3) as [[[message | shown] | result] w4];
    destruct (Date_now w4) as [now w5]; reflexivity.
Qed.

(** X14.  A delegation touches the entries of its own task only: the
    sub-agents are as before, and under every id other than the one drawn
    for the new task [pendingTasks] and [completedTasks] hold what they
    held. *)
Theorem delegateTask_touches_one_task (agentId taskDescription : string)
    (context : JSON) (o : Orchestrator) (j : string) :
  j <> fst (uuidv4 (outer o)) ->
  subAgents (snd (delegateTask agentId taskDescription context o)) = subAgents o
  /\ pendingTasks (snd (delegateTask agentId taskDescription context o)) !! j
     = pendingTasks o !! j
  /\ completedTasks (snd (delegateTask agentId taskDescription context o)) !! j
     = completedTasks o !! j.
Proof.
  intros Hj. rewrite delegateTask_state.
  destruct (map_get agentId (subAgents o)) as [subAgent|] eqn:Hfound.
  - rewrite (delegation_run _ _ _ _ _ Hfound).
    destruct (uuidv4 (outer o)) as [i w1]. cbn [fst] in Hj.
    destruct (Date_now w1) as [c w2].
    destruct (Date_now w2) as [u w3]. cbv zeta.
    destruct (agent_execute (agent subAgent)
                (newTask i c u agentId taskDescription context) w3) as [outcome w4].
    destruct (Date_now w4) as [now w5].
    cbn [snd subAgents pendingTasks completedTasks].
    split; [reflexivity|].
    rewrite lookup_delete_ne, !lookup_insert_ne by congruence. now split.
  - unfold delegation, bind, gets. rewrite Hfound. cbn. now repeat split.
Qed.

(** X15.  The four numbers of [getStats] add up: the total is the number
    of pending tasks plus the succeeded plus the failed ones. *)
Theorem getStats_adds_up (o : Orchestrator) :
  let '(sum, queued, done, lost) := getStats o in
  sum = queued + done + lost /\ queued = size (pendingTasks o).
Proof.
  unfold getStats.
  rewrite <- Nat.add_assoc, filter_length_split, length_map, length_map_to_list.
  now split.
Qed.

(** X16.  What one delegation does to the statistics.  When the id drawn
    for the task is fresh, a delegation to a registered sub-agent raises the
    total by one and either the succeeded or the failed count by one,
    according to [success] of the result it returns; the pending count is
    the same. *)
Theorem delegateTask_counts (agentId taskDescription : string) (context : JSON)
    (o : Orchestrator) (subAgent : SubAgent) (result : TaskResult) (o' : Orchestrator) :
  map_get agentId (subAgents o) = Some subAgent ->
  pendingTasks o !! fst (uuidv4 (outer o)) = None ->
  completedTasks o !! fst (uuidv4 (outer o)) = None ->
  delegateTask agentId taskDescription context o = (inr result, o') ->
  getStats o'
  = let '(sum, queued, done, lost) := getStats o in
    (S sum, queued,
     if tr_success result then S done else done,
     if tr_success result then lost else S lost).
Proof.
  intros Hfound Hp Hc. unfold delegateTask, bind at 1.
  rewrite (delegation_run _ _ _ _ _ Hfound).
  destruct (uuidv4 (outer o)) as [i w1]. cbn [fst] in Hp, Hc.
  destruct (Date_now w1) as [c w2].
  destruct (Date_now w2) as [u w3]. cbv zeta.
  destruct (agent_execute (agent subAgent)
              (newTask i c u agentId taskDescription context) w3) as [outcome w4].
  destruct (Date_now w4) as [now w5].
  cbn [ret returned]. intros [= <- <-].
  rewrite (delete_insert_id _ _ _ Hp).
  rewrite <- (getStats_insert i _ o Hc). reflexivity.
Qed.

(** X17.  With every sub-agent filed under its own id, as
    [registerSubAgent] files them, an id that [selectBestAgent] returns is
    the id of a registered sub-agent: a delegation to it finds its agent. *)
Theorem selectBestAgent_registered (taskDescription : string) (o : Orchestrator)
    (i : string) :
  filed o ->
  selectBestAgent taskDescription o = Some i ->
  exists subAgent, getSubAgent i o = Some subAgent.
Proof.
  unfold filed, selectBestAgent, getSubAgent. intros Hfiled.
  assert (Hfirst : forall entries k,
            firstCapable (toLowerCase taskDescription) entries = Some k ->
            map_get k entries <> None).
  { induction entries as [|[k' sa] rest IH]; intros k; cbn; [discriminate|].
    destruct (capable (toLowerCase taskDescription) sa).
    - intros [= ->]. now rewrite String.eqb_refl.
    - intros E. destruct (String.eqb k k'); [discriminate | now apply IH]. }
  destruct (firstCapable (toLowerCase taskDescription) (subAgents o)) as [k|] eqn:E.
  - intros [= ->]. apply Hfirst in E.
    destruct (map_get i (subAgents o)) as [sa|]; [now exists sa | congruence].
  - unfold firstAgentId, map_values.
    destruct (subAgents o) as [|[k first] rest]; [discriminate|].
    inversion Hfiled as [|? ? Hk _]; subst. cbn in Hk |- *.
    destruct (String.eqb (sa_id first) ""); [discriminate|].
    intros [= <-]. subst k. rewrite String.eqb_refl. now exists first.
Qed.


End OrchestratorProperties.

(** ** The statistics tool: what it answers *)

Section StatisticsProperties.
Context {N : Type} `{Number N} `{Engine}.

Lemma insertNumber_Permutation (x : N) l : insertNumber x l ≡ₚ x :: l.
Proof.
  induction l as [|y rest IH]; cbn [insertNumber]; [reflexivity|].
  destruct (positive (minus y x)); [reflexivity|].
  rewrite IH. apply perm_swap.
Qed.

(** The sort loses nothing and invents nothing, whatever the arithmetic. *)
Lemma sortNumbers_Permutation (l : list N) : sortNumbers l ≡ₚ l.
Proof.
  unfold sortNumbers.
  assert (Hgen : forall acc, fold_left (fun acc x => insertNumber x acc) l acc ≡ₚ l ++ acc).
  { induction l as [|x rest IH]; intros acc; [reflexivity|].
    cbn [fold_left]. rewrite IH, insertNumber_Permutation.
    cbn. symmetry. apply Permutation_middle. }
  rewrite Hgen. now rewrite app_nil_r.
Qed.

Lemma includesOperation_array (ops : list (JsValue N)) (op : string) :
  includesOperation (JArray ops) op = inr (mentions ops op).
Proof. reflexivity. Qed.

Lemma andThen_returns {A B} (x : Thrown + A) (k : A -> Thrown + B) (r : B) (P : Prop) :
  (forall a, k a = inr r -> P) -> andThen x k = inr r -> P.
Proof. intros Hk. destruct x as [e | a]; cbn; [discriminate | apply Hk]. Qed.

(** X19.  The answer of the statistics tool is well formed for every
    [params], whatever their type and whatever the arithmetic: a success
    carries a result object and no error; a failure carries an error
    message and neither data nor metadata. *)
Theorem statisticalAnalysis_well_formed (params : JsValue N) :
  if success (statisticalAnalysis params)
  then (exists results, data (statisticalAnalysis params) = Some (JObject results))
       /\ error (statisticalAnalysis params) = None
  else data (statisticalAnalysis params) = None
       /\ (exists message, error (statisticalAnalysis params) = Some message)
       /\ metadata (statisticalAnalysis params) = None.
Proof.
  assert (Hfail : forall message,
            let r : ToolResultOf N := failure message in
            if success r
            then (exists results, data r = Some (JObject results)) /\ error r = None
            else data r = None /\ (exists m, error r = Some m) /\ metadata r = None).
  { intros message. cbn. eauto. }
  assert (Hok : forall (nd : list N) ops r, analyse nd ops = inr r ->
            if success r
            then (exists results, data r = Some (JObject results)) /\ error r = None
            else data r = None /\ (exists m, error r = Some m) /\ metadata r = None).
  { intros nd ops r. unfold analyse. cbv zeta.
    repeat (apply andThen_returns; intros ?).
    intros [= <-]. cbn. eauto. }
  unfold statisticalAnalysis.
  destruct params as [| |b|n|s|elements|fields]; try apply Hfail.
  destruct (prop "data" (JObject fields)) as [| | | | |[|e rest]|]; try apply Hfail.
  destruct (numericOnly (e :: rest)) as [|x nd]; [apply Hfail|].
  destruct (analyse _ _) as [thrown | r] eqn:E; [apply Hfail | exact (Hok _ _ _ E)].
Qed.
Lemma entriesOf_length (freq : list (N * nat)) :
  List.length (map snd (entriesOf freq)) = List.length freq.
Proof.
  unfold entriesOf. rewrite length_map, length_app. apply filter_length_split.
Qed.

(** The result object for an array of operations. *)
Lemma analyse_array (nd : list N) (ops : list (JsValue N)) :
  if mentions ops "mode"
     && (argumentLimit <? List.length (frequencies (sortNumbers nd)))%nat
  then analyse nd (JArray ops) = inl (ErrorObject "Maximum call stack size exceeded")
  else
    exists results,
      analyse nd (JArray ops)
      = inr {| success := true; data := Some (JObject results); error := None;
               metadata := Some [("dataSize",
                                  JNumber (fromNat (List.length (sortNumbers nd))));
                                 ("operationsPerformed", JArray ops)] |}
      /\ map fst results = resultKeys ops.
Proof.
  unfold analyse, whenRequested, resultKeys, modeOf. cbv zeta.
  rewrite !includesOperation_array, entriesOf_length. cbn [List.filter].
  destruct (argumentLimit <? List.length (frequencies (sortNumbers nd)))%nat;
    repeat match goal with
           | |- context [mentions ops ?k] => destruct (mentions ops k)
           end;
    cbn [andThen orb andb];
    first [ reflexivity | eexists; (split; [reflexivity|]); reflexivity ].
Qed.

(** X20.  Which results come back.  For data with a numeric entry and an
    array of operations the tool succeeds, unless [mode] is asked for and
    the data has more distinct values than a call takes arguments: then
    [Math.max(...)] throws and the tool fails with "Maximum call stack size
    exceeded".  When it succeeds it reports as [dataSize] the number of
    entries of [data] that are numbers and not NaN, and the keys of its
    result object are those of the operations named, in a fixed order
    whatever the order of the array: [variance] and [std] always come
    together, [quartiles] gives [q1], [q3] and [iqr], names the tool does
    not know are ignored, and an empty array gives an empty result. *)
Theorem statisticalAnalysis_keys (params : JsValue N) (elements ops : list (JsValue N)) :
  prop "data" params = JArray elements ->
  numericOnly elements <> [] ->
  prop "operations" params = JArray ops ->
  if mentions ops "mode"
     && (argumentLimit
         <? List.length (frequencies (sortNumbers (numericOnly elements))))%nat
  then
    statisticalAnalysis params
    = {| success := false; data := None;
         error := Some "Maximum call stack size exceeded"; metadata := None |}
  else
    success (statisticalAnalysis params) = true
    /\ metadata (statisticalAnalysis params)
       = Some [("dataSize", JNumber (fromNat (List.length (numericOnly elements))));
               ("operationsPerformed", JArray ops)]
    /\ exists results,
         data (statisticalAnalysis params) = Some (JObject results)
         /\ map fst results = resultKeys ops.
Proof.
  intros Hdata Hnum Hops.
  destruct params as [| |b|n|s|es|fields]; try discriminate Hdata.
  unfold statisticalAnalysis. rewrite Hdata, Hops. cbn [truthyValue].
  destruct elements as [|e rest]; [now contradiction Hnum|].
  destruct (numericOnly (e :: rest)) as [|x nd] eqn:End; [now contradiction Hnum|].
  pose proof (analyse_array (x :: nd) ops) as Harray.
  destruct (mentions ops "mode"
            && (argumentLimit <? List.length (frequencies (sortNumbers (x :: nd))))%nat).
  - rewrite Harray. reflexivity.
  - destruct Harray as (results & -> & Hkeys).
    cbn [success metadata data].
    rewrite (Permutation_length (sortNumbers_Permutation (x :: nd))).
    split; [reflexivity|]. split; [reflexivity|]. now exists results.
Qed.
End StatisticsProperties.

(** ** The provider factory *)

Section FactoryProperties.
Context `{Platform}.

Lemma sameProviderType_spec a b : sameProviderType a b = true <-> a = b.
Proof. destruct a, b; cbn; split; (reflexivity || discriminate). Qed.

Lemma type_set_eq {V} type (v : V) m : type_set type v m type = Some v.
Proof.
  unfold type_set. now rewrite (proj2 (sameProviderType_spec type type) eq_refl).
Qed.

Lemma type_set_ne {V} type (v : V) m t : t <> type -> type_set type v m t = m t.
Proof.
  intros Hne. unfold type_set.
  destruct (sameProviderType t type) eqn:E; [|reflexivity].
  now apply sameProviderType_spec in E.
Qed.

(** One entry of [initializeAll]: it cannot throw, and the one thing it may
    record is the configuration of an enabled provider whose [initialize]
    returned. *)
Lemma initializeEntry_run entry f :
  exists f',
    initializeEntry entry f = (inr tt, f')
    /\ providers f' = providers f
    /\ activeProvider f' = activeProvider f
    /\ forall t c,
         configs f' t = Some c ->
         configs f t = Some c
         \/ ((t, c) = entry /\ enabled c = true
             /\ exists p, providers f t = Some p
                          /\ fst (initialize p c (surroundings f)) = inr tt).
Proof.
  destruct entry as [type config]. unfold initializeEntry, bind at 1, gets.
  destruct (providers f type) as [p|] eqn:Hp; [|exists f; cbn; auto].
  destruct (enabled config) eqn:He; [|exists f; cbn; auto].
  unfold try_catch, bind, outsideF, modify.
  destruct (initialize p config (surroundings f)) as [[thrown | []] w] eqn:Ei.
  - eexists. split; [reflexivity|]. cbn. auto.
  - eexists. split; [reflexivity|]. cbn. split; [reflexivity|]. split; [reflexivity|].
    intros t c. unfold type_set.
    destruct (sameProviderType t type) eqn:E; [|auto].
    apply sameProviderType_spec in E. subst t. intros [= <-].
    right. split; [reflexivity|]. split; [exact He|].
    exists p. now rewrite Ei.
Qed.

(** X21.  [initializeAll] cannot throw, whatever the providers do.  It
    leaves the providers and the active type as they are, and a
    configuration it has recorded is one of the entries given, is enabled,
    and was accepted by its provider: [initialize] returned on it. *)
Theorem initializeAll_records_what_initialized
    (entries : list (ProviderType * ProviderConfig)) (f : ProviderFactory) :
  exists f',
    initializeAll entries f = (inr tt, f')
    /\ providers f' = providers f
    /\ activeProvider f' = activeProvider f
    /\ forall t c,
         configs f' t = Some c ->
         configs f t = Some c
         \/ (In (t, c) entries /\ enabled c = true
             /\ exists p w, providers f t = Some p /\ fst (initialize p c w) = inr tt).
Proof.
  revert f. induction entries as [|entry rest IH]; intros f.
  - exists f. cbn. auto.
  - cbn [initializeAll]. unfold bind at 1.
    destruct (initializeEntry_run entry f) as (f1 & -> & Hp1 & Ha1 & Hc1).
    destruct (IH f1) as (f' & -> & Hp & Ha & Hc).
    exists f'. split; [reflexivity|].
    split; [congruence|]. split; [congruence|].
    intros t c Hfound.
    destruct (Hc t c Hfound) as [Hold | (Hin & He & p & w & Hprov & Hinit)].
    + destruct (Hc1 t c Hold) as [Hold' | (<- & He & p & Hprov & Hinit)]; [now left|].
      right. split; [now left|]. split; [exact He|]. eauto.
    + right. split; [now right|]. split; [exact He|].
      exists p, w. split; [congruence | exact Hinit].
Qed.

(** X22.  [initializeProvider] records the configuration before it hands
    it to the provider: the configuration is stored under its type whether
    [initialize] returns or throws, what [initialize] throws is thrown on,
    and the other types keep their configurations. *)
Theorem initializeProvider_records_first (type : ProviderType) (config : ProviderConfig)
    (f : ProviderFactory) (p : AIProvider) :
  providers f type = Some p ->
  fst (initializeProvider type config f) = fst (initialize p config (surroundings f))
  /\ configs (snd (initializeProvider type config f)) type = Some config
  /\ forall t, t <> type ->
       configs (snd (initializeProvider type config f)) t = configs f t.
Proof.
  intros Hp.
  assert (E : initializeProvider type config f
              = let (r, w) := initialize p config (surroundings f) in
                (r, {| providers := providers f; activeProvider := activeProvider f;
                       configs := type_set type config (configs f);
                       surroundings := w; errorLog := errorLog f |})).
  { unfold initializeProvider, bind, gets, modify, outsideF. rewrite Hp. reflexivity. }
  rewrite E. destruct (initialize p config (surroundings f)) as [r w].
  cbn [fst snd configs].
  split; [reflexivity|]. split; [apply type_set_eq|].
  intros t Ht. now apply type_set_ne.
Qed.

(** X23.  The active provider is the one chosen last.  After
    [setActiveProvider(type)] with a registered type, [createChatCompletion]
    is the call of that provider; with a type that has no provider
    [setActiveProvider] throws and the factory is as it was. *)
Theorem setActiveProvider_then_createChatCompletion (type : ProviderType)
    (request : ChatCompletionRequest) (f : ProviderFactory) :
  match providers f type with
  | Some p =>
      exists f1,
        setActiveProvider type f = (inr tt, f1)
        /\ activeProvider f1 = type
        /\ fst (factory_createChatCompletion request f1)
           = fst (createChatCompletion p request (surroundings f))
        /\ surroundings (snd (factory_createChatCompletion request f1))
           = snd (createChatCompletion p request (surroundings f))
  | None =>
      setActiveProvider type f
      = (inl (ErrorObject ("Unknown provider type: " +:+ providerTypeName type)), f)
  end.
Proof.
  destruct (providers f type) as [p|] eqn:Hp.
  - exists (with_activeProvider type f).
    split; [unfold setActiveProvider, bind, gets, modify; now rewrite Hp|].
    split; [reflexivity|].
    assert (E : factory_createChatCompletion request (with_activeProvider type f)
                = outsideF (createChatCompletion p request) (with_activeProvider type f)).
    { unfold factory_createChatCompletion, getActiveProvider, bind, gets, ret.
      cbn [with_activeProvider activeProvider providers]. now rewrite Hp. }
    rewrite E. unfold outsideF. cbn [with_activeProvider surroundings].
    now destruct (createChatCompletion p request (surroundings f)) as [r w].
  - unfold setActiveProvider, bind, gets, throw. now rewrite Hp.
Qed.
End FactoryProperties.

(** ** The further properties at work *)

Section FurtherWitnesses.
Import Sample SampleTeam SampleTools SampleProviders.
#[local] Existing Instance quiet.

(** X1 at work: a registered tool whose body throws. *)
Lemma registerTool_then_execute_witness :
  toolName {| tc_id := "call_1"; toolName := "broken"; arguments := JObject [] |}
  = name (definition broken)
  /\ fst (executeToolCall
            {| tc_id := "call_1"; toolName := "broken"; arguments := JObject [] |}
            (with_self (registerTool broken) (start (H := quiet) 0%Z)))
     = inr {| success := false; data := None; error := Some "disk full";
              metadata := None |}.
Proof.
  split; [reflexivity|].
  destruct (registerTool_then_execute broken (start (H := quiet) 0%Z)
              {| tc_id := "call_1"; toolName := "broken"; arguments := JObject [] |}
              eq_refl) as [E _].
  rewrite E. reflexivity.
Defined.

(** X2 at work: [echo] registered twice, with two bodies. *)
Lemma registerTools_last_wins_witness :
  tools bare = []
  /\ map_get "echo" (tools (registerTools [echo; broken; echoTwice] bare))
     = Some echoTwice.
Proof.
  split; [reflexivity|].
  destruct (registerTools_last_wins [echo; broken; echoTwice] bare eq_refl)
    as (_ & _ & Hlast).
  apply (Hlast [echo; broken] echoTwice []); [reflexivity | constructor].
Defined.

(** X9 at work: two turns with a tool call each. *)
Lemma runAgentLoop_transcript_witness :
  exists r s',
    runAgentLoop (H := scripted asksForTool) hello 2
      (start (H := scripted asksForTool) 0%Z) = (inr r, s')
    /\ Forall (fun m => am_role m = assistant \/ am_role m = tool) (lr_messages r)
    /\ List.length (calls s')
       = List.length (calls (start (H := scripted asksForTool) 0%Z))
         + List.length (List.filter isAssistant (lr_messages r)).
Proof.
  destruct (runAgentLoop (H := scripted asksForTool) hello 2
              (start (H := scripted asksForTool) 0%Z)) as [[e | r] s'] eqn:E.
  - vm_compute in E. discriminate E.
  - exists r, s'. split; [reflexivity|].
    apply (runAgentLoop_transcript (H := scripted asksForTool) hello 2
             (start (H := scripted asksForTool) 0%Z) r s' E).
Defined.


(** X13 at work: a sub-agent that reports the task it was handed, and one
    that throws. *)
Lemma registerSubAgent_then_delegateTask_witness :
  fst (delegateTask "scribe" "write a summary" JUndefined
         (registerSubAgent (reporter "scribe" "Scribe") ["writing"] nobody))
  = inr {| tr_success := true;
           output := Some (JArray [JString "write a summary"; JString "scribe"]);
           tr_error := None; artifacts := None; executionTime := None |}
  /\ fst (delegateTask "scribe" "write a summary" JUndefined
            (registerSubAgent (faulty "scribe" "Scribe") ["writing"] nobody))
     = inr {| tr_success := false; output := None;
              tr_error := Some "rate limit exceeded";
              artifacts := None; executionTime := None |}.
Proof.
  split.
  - destruct (registerSubAgent_then_delegateTask (reporter "scribe" "Scribe")
                ["writing"] nobody "write a summary" JUndefined) as (_ & _ & E).
    exact E.
  - destruct (registerSubAgent_then_delegateTask (faulty "scribe" "Scribe")
                ["writing"] nobody "write a summary" JUndefined) as (_ & _ & E).
    exact E.
Defined.

(** X14 at work: a delegation in [crew] leaves the entries of another id
    alone. *)
Lemma delegateTask_touches_one_task_witness :
  "task-1" <> fst (uuidv4 (outer crew))
  /\ subAgents (snd (delegateTask "content-orchestrator" "write a summary"
                       JUndefined crew)) = subAgents crew
  /\ pendingTasks (snd (delegateTask "content-orchestrator" "write a summary"
                          JUndefined crew)) !! "task-1"
     = pendingTasks crew !! "task-1"
  /\ completedTasks (snd (delegateTask "content-orchestrator" "write a summary"
                            JUndefined crew)) !! "task-1"
     = completedTasks crew !! "task-1".
Proof.
  assert (Hother : "task-1" <> fst (uuidv4 (outer crew))) by discriminate.
  split; [exact Hother|].
  apply (delegateTask_touches_one_task "content-orchestrator" "write a summary"
           JUndefined crew "task-1" Hother).
Defined.

(** X16 at work: the first delegation in [crew] fails, and is counted so. *)
Lemma delegateTask_counts_witness :
  getStats crew = (0, 0, 0, 0)
  /\ getStats (snd (delegateTask "content-orchestrator" "write a summary"
                      JUndefined crew)) = (1, 0, 0, 1).
Proof.
  split; [reflexivity|].
  destruct (delegateTask "content-orchestrator" "write a summary" JUndefined crew)
    as [[e | result] o'] eqn:E; [vm_compute in E; discriminate E|].
  cbn [snd].
  rewrite (delegateTask_counts "content-orchestrator" "write a summary" JUndefined crew
             {| sa_id := "content-orchestrator"; sa_name := "Content Orchestrator";
                agent := faulty "content-orchestrator" "Content Orchestrator";
                capabilities := ["writing"] |} result o' eq_refl eq_refl eq_refl E).
  assert (Hs : tr_success result = false).
  { vm_compute in E. injection E as <- _. reflexivity. }
  rewrite Hs. reflexivity.
Defined.

(** X17 at work: the fallback in [team]. *)
Lemma selectBestAgent_registered_witness :
  filed team
  /\ selectBestAgent "translate this page" team = Some "analytics-orchestrator"
  /\ exists subAgent, getSubAgent "analytics-orchestrator" team = Some subAgent.
Proof.
  assert (Hfiled : filed team).
  { unfold team. do 2 apply registerSubAgent_filed. constructor. }
  split; [exact Hfiled|]. split; [reflexivity|].
  apply (selectBestAgent_registered "translate this page" team
           "analytics-orchestrator" Hfiled eq_refl).
Defined.

(** X22 at work: a provider out of reach keeps the configuration it was
    given. *)
Lemma initializeProvider_records_first_witness :
  providers cutOff ollama = Some unreachable
  /\ fst (initializeProvider ollama ollamaConfig cutOff)
     = inl (ErrorObject "connect ECONNREFUSED")
  /\ configs (snd (initializeProvider ollama ollamaConfig cutOff)) ollama
     = Some ollamaConfig.
Proof.
  split; [reflexivity|].
  destruct (initializeProvider_records_first ollama ollamaConfig cutOff unreachable
              eq_refl) as (Hthrown & Hstored & _).
  split; [exact Hthrown | exact Hstored].
Defined.
End FurtherWitnesses.

Section StatisticsWitness.
Import Binary64 SampleEngines.

(** X20 at work, over binary64: [mixed], and [tally] on an engine with room
    for its two distinct values and on one without. *)
Lemma statisticalAnalysis_keys_witness :
  numericOnly (N := float) [JNumber (fromNat 4); JString "n/a"; JNumber (fromNat 2)]
  <> []
  /\ metadata (@statisticalAnalysis float number roomy mixed)
     = Some [("dataSize", JNumber 2%float);
             ("operationsPerformed",
              JArray [JString "quartiles"; JString "kurtosis"; JString "std"])]
  /\ (exists results,
        data (@statisticalAnalysis float number roomy mixed) = Some (JObject results)
        /\ map fst results = ["variance"; "std"; "q1"; "q3"; "iqr"])
  /\ (exists results,
        data (@statisticalAnalysis float number roomy tally) = Some (JObject results)
        /\ map fst results = ["count"; "mode"])
  /\ @statisticalAnalysis float number cramped tally
     = {| success := false; data := None;
          error := Some "Maximum call stack size exceeded"; metadata := None |}.
Proof.
  assert (Hmixed : numericOnly (N := float)
                     [JNumber (fromNat 4); JString "n/a"; JNumber (fromNat 2)] <> []).
  { vm_compute. discriminate. }
  assert (Htally : numericOnly (N := float)
                     [JNumber (fromNat 4); JNumber (fromNat 2); JNumber (fromNat 4)]
                   <> []).
  { vm_compute. discriminate. }
  split; [exact Hmixed|].
  pose proof (@statisticalAnalysis_keys float number roomy mixed
                [JNumber (fromNat 4); JString "n/a"; JNumber (fromNat 2)]
                (map JString ["quartiles"; "kurtosis"; "std"])
                eq_refl Hmixed eq_refl) as H1.
  pose proof (@statisticalAnalysis_keys float number roomy tally
                [JNumber (fromNat 4); JNumber (fromNat 2); JNumber (fromNat 4)]
                (map JString ["mode"; "count"])
                eq_refl Htally eq_refl) as H2.
  pose proof (@statisticalAnalysis_keys float number cramped tally
                [JNumber (fromNat 4); JNumber (fromNat 2); JNumber (fromNat 4)]
                (map JString ["mode"; "count"])
                eq_refl Htally eq_refl) as H3.
  vm_compute in H1. vm_compute in H2. vm_compute in H3.
  destruct H1 as (_ & Hmeta & results1 & Hdata1 & Hkeys1).
  destruct H2 as (_ & _ & results2 & Hdata2 & Hkeys2).
  split; [vm_compute; exact Hmeta|].
  split; [exists results1; split; [vm_compute; exact Hdata1 | exact Hkeys1]|].
  split; [exists results2; split; [vm_compute; exact Hdata2 | exact Hkeys2]|].
  vm_compute. exact H3.
Defined.
End StatisticsWitness.

